(** * delete_urls.py: a shallow embedding and its verified properties

    The script reads a list of URLs, looks every URL up in every
    collection of a Watson Discovery project and deletes the matching
    documents.  The embedding follows the script function by function:

    - Python [str] values are lists of Unicode code points;
    - [os.environ], the parsed [config.env] and the file system are
      finite maps;
    - the Discovery service is an arbitrary state machine with one handler
      per API operation; each handler either returns a JSON response or
      raises;
    - the script itself runs in a small monad that threads the service
      state, writes the observable events (console lines, client creation,
      API calls with their outcome) and carries the three ways a Python
      computation can stop early: a raised exception, [sys.exit], and,
      for the model only, an exhausted iteration budget of the
      [while True] loop.

    A path of the file system is either absent or a readable text file,
    [print] always succeeds, and the calls of the SDK raise subclasses of
    [Exception] only. *)

From Stdlib Require Import String Ascii DecimalString.
From stdpp Require Import base option list gmap.

Local Open Scope nat_scope.

(** ** Python strings *)

Module Str.

(** A [str] is a sequence of code points. *)
Definition str : Type := list N.

(** Source literals are ASCII; [lit] gives their code points. *)
Fixpoint lit (s : string) : str :=
  match s with
  | EmptyString => []
  | String c s' => N_of_ascii c :: lit s'
  end.

Arguments lit : simpl never.

(** The code point of the double quote character. *)
Definition dquote : N := 34%N.

(** [str(n)] for a non-negative integer. *)
Definition of_nat (n : nat) : str := lit (NilEmpty.string_of_uint (Nat.to_uint n)).

Arguments of_nat : simpl never.

(** Truthiness of a string: [bool(s)]. *)
Definition truthy (s : str) : bool :=
  match s with [] => false | _ :: _ => true end.

(** [s.startswith(p)]. *)
Fixpoint startswith (p s : str) : bool :=
  match p, s with
  | [], _ => true
  | _ :: _, [] => false
  | a :: p', b :: s' => N.eqb a b && startswith p' s'
  end.

(** [sep.join(parts)]. *)
Fixpoint join (sep : str) (parts : list str) : str :=
  match parts with
  | [] => []
  | [p] => p
  | p :: ps => p ++ sep ++ join sep ps
  end.

Definition in_range (lo hi c : N) : bool := N.leb lo c && N.leb c hi.

(** [c.isspace()]: the code points [str.strip()] removes. *)
Definition is_space (c : N) : bool :=
  in_range 0x09 0x0D c || in_range 0x1C 0x20 c
  || N.eqb c 0x85 || N.eqb c 0xA0 || N.eqb c 0x1680
  || in_range 0x2000 0x200A c || N.eqb c 0x2028 || N.eqb c 0x2029
  || N.eqb c 0x202F || N.eqb c 0x205F || N.eqb c 0x3000.

(** The line boundaries of [str.splitlines()]. *)
Definition is_linebreak (c : N) : bool :=
  in_range 0x0A 0x0D c || in_range 0x1C 0x1E c
  || N.eqb c 0x85 || N.eqb c 0x2028 || N.eqb c 0x2029.

Fixpoint lstrip (s : str) : str :=
  match s with
  | [] => []
  | c :: s' => if is_space c then lstrip s' else s
  end.

Definition rstrip (s : str) : str := rev (lstrip (rev s)).

(** [s.strip()]. *)
Definition strip (s : str) : str := rstrip (lstrip s).

(** [s.splitlines()]: [cur] holds the characters of the line being read,
    last one first.  A carriage return followed by a line feed is one
    boundary; text after the last boundary is a line only when it is not
    empty. *)
Fixpoint splitlines_from (cur : str) (s : str) : list str :=
  match s with
  | [] => match cur with [] => [] | _ :: _ => [rev cur] end
  | c :: rest =>
      if is_linebreak c then
        match rest with
        | n :: rest' =>
            if N.eqb c 0x0D && N.eqb n 0x0A
            then rev cur :: splitlines_from [] rest'
            else rev cur :: splitlines_from [] rest
        | [] => rev cur :: splitlines_from [] rest
        end
      else splitlines_from (c :: cur) rest
  end.

Definition splitlines (s : str) : list str := splitlines_from [] s.

End Str.

Export Str.

(** ** The input loader *)

Module Loader.

(** One iteration of the loop of [load_urls] over the lines of the file:
    [urls] is the list built so far. *)
Definition load_urls_step (urls : list str) (line : str) : list str :=
  let stripped := strip line in
  if truthy stripped && negb (startswith (lit "#") stripped)
  then urls ++ [stripped]
  else urls.

(** The result of [load_urls] on a file whose text is [content]. *)
Definition load_urls_text (content : str) : list str :=
  fold_left load_urls_step (splitlines content) [].

End Loader.

Export Loader.

(** ** Exceptions, JSON values and API requests *)

(** The exceptions the script can meet: whatever the SDK raises for a
    failed call (only its text matters, through [str(e)]), and the
    [KeyError] of a subscript on a missing key. *)
Inductive exn : Type :=
| ServiceError (text : str)
| KeyError (key : str).

(** [str(e)]. *)
Definition exn_str (e : exn) : str :=
  match e with
  | ServiceError text => text
  | KeyError key => lit "'" ++ key ++ lit "'"
  end.

(** What a call of the SDK does: return the decoded response or raise. *)
Inductive outcome (A : Type) : Type :=
| Returned (a : A)
| Raised (e : exn).
Arguments Returned {A} a.
Arguments Raised {A} e.

(** The JSON objects the script reads; an absent key is [None]. *)
Record collection_obj : Type := CollectionObj {
  coll_collection_id : option str;
  coll_name : option str
}.

Record collections_response : Type := CollectionsResponse {
  resp_collections : option (list collection_obj)
}.

Record result_obj : Type := ResultObj {
  doc_document_id : option str
}.

Record query_response : Type := QueryResponse {
  resp_results : option (list result_obj)
}.

Record delete_response : Type := DeleteResponse {
  resp_status : option str
}.

(** The keyword arguments of [discovery.query] and
    [discovery.delete_document]. *)
Record query_request : Type := QueryRequest {
  q_project_id : str;
  q_collection_ids : list str;
  q_filter : str;
  q_return : list str;
  q_count : nat;
  q_offset : nat
}.

Record delete_request : Type := DeleteRequest {
  d_project_id : str;
  d_collection_id : str;
  d_document_id : str
}.

(** The [DiscoveryV2] object built by [create_client]. *)
Record client : Type := Client {
  client_version : str;
  client_api_key : str;
  client_service_url : str
}.

(** The remote service: a state and one handler per operation. *)
Record service (S : Type) : Type := Service {
  svc_list_collections : client -> str -> S -> outcome collections_response * S;
  svc_query : client -> query_request -> S -> outcome query_response * S;
  svc_delete_document : client -> delete_request -> S -> outcome delete_response * S
}.
Arguments svc_list_collections {S} _ _ _ _.
Arguments svc_query {S} _ _ _ _.
Arguments svc_delete_document {S} _ _ _ _.

(** What a run lets the outside world see, in order. *)
Inductive event : Type :=
| EvPrint (line : str)
| EvClient (c : client)
| EvListCollections (project : str) (o : outcome collections_response)
| EvQuery (r : query_request) (o : outcome query_response)
| EvDelete (r : delete_request) (o : outcome delete_response).

(** ** The monad of the script *)

Module Script.

(** How a computation ends: with a value, with an exception on its way
    up, with [sys.exit(code)], or with the model's iteration budget used
    up. *)
Inductive res (A : Type) : Type :=
| Val (a : A)
| Raise (e : exn)
| Exit (code : nat)
| Fuel.
Arguments Val {A} a.
Arguments Raise {A} e.
Arguments Exit {A} code.
Arguments Fuel {A}.

Definition M (S A : Type) : Type := S -> res A * S * list event.

Definition ret {S A} (a : A) : M S A := fun s => (Val a, s, []).

Definition bind {S A B} (m : M S A) (k : A -> M S B) : M S B :=
  fun s =>
    let '(r, s1, ev1) := m s in
    match r with
    | Val a => let '(r2, s2, ev2) := k a s1 in (r2, s2, ev1 ++ ev2)
    | Raise e => (Raise e, s1, ev1)
    | Exit code => (Exit code, s1, ev1)
    | Fuel => (Fuel, s1, ev1)
    end.

(** [raise e]. *)
Definition raise {S A} (e : exn) : M S A := fun s => (Raise e, s, []).

(** [sys.exit(code)]. *)
Definition sys_exit {S A} (code : nat) : M S A := fun s => (Exit code, s, []).

Definition out_of_fuel {S A} : M S A := fun s => (Fuel, s, []).

(** [print(line)]. *)
Definition print {S} (line : str) : M S unit := fun s => (Val tt, s, [EvPrint line]).

(** [try: m except Exception as e: h e].  [sys.exit] is not an
    [Exception] and passes through. *)
Definition try_except {S A} (m : M S A) (h : exn -> M S A) : M S A :=
  fun s =>
    let '(r, s1, ev1) := m s in
    match r with
    | Raise e => let '(r2, s2, ev2) := h e s1 in (r2, s2, ev1 ++ ev2)
    | _ => (r, s1, ev1)
    end.

(** A call of the SDK: run the handler, log the call with its outcome. *)
Definition api_call {S A} (handler : S -> outcome A * S) (log : outcome A -> event) : M S A :=
  fun s =>
    let '(o, s1) := handler s in
    (match o with Returned a => Val a | Raised e => Raise e end, s1, [log o]).

(** The same end, at another type, for a computation that did not
    return a value. *)
Definition stopped_as {A B} (r1 : res A) (r : res B) : Prop :=
  match r1, r with
  | Raise e1, Raise e => e1 = e
  | Exit c1, Exit c => c1 = c
  | Fuel, Fuel => True
  | _, _ => False
  end.

End Script.

Export Script.

Declare Scope script_scope.
Delimit Scope script_scope with script.
Notation "x <- m ;; k" := (bind m (fun x => k))
  (at level 100, m at next level, right associativity) : script_scope.
Notation "m ;; k" := (bind m (fun _ => k))
  (at level 100, right associativity) : script_scope.
Local Open Scope script_scope.

(** ** The script *)

(** The dictionary returned by [load_config]. *)
Record config : Type := Config {
  cfg_api_key : str;
  cfg_url : str;
  cfg_project_id : str;
  cfg_version : str
}.

(** What the process is started with: [sys.argv], the directory of the
    script, [os.environ], the key/value pairs of [config.env] as
    [load_dotenv] reads them, and the text files by path. *)
Record inputs : Type := Inputs {
  argv : list str;
  script_dir : str;
  environ : gmap str str;
  dotenv : gmap str str;
  files : gmap str str
}.

(** The three accumulators of [main]; an error record is
    [(url, doc_id, collection_name, message)]. *)
Record tally : Type := Tally {
  total_deleted : nat;
  total_not_found : nat;
  errors : list (str * str * str * str)
}.

Definition count_deleted (t : tally) : tally :=
  Tally (total_deleted t + 1) (total_not_found t) (errors t).

Definition count_not_found (t : tally) : tally :=
  Tally (total_deleted t) (total_not_found t + 1) (errors t).

Definition append_error (t : tally) (e : str * str * str * str) : tally :=
  Tally (total_deleted t) (total_not_found t) (errors t ++ [e]).

Definition required : list str :=
  [lit "DISCOVERY_API_KEY"; lit "DISCOVERY_URL"; lit "DISCOVERY_PROJECT_ID"].

(** [os.getenv] once [load_dotenv] has run: variables of the process win
    over those of the file. *)
Definition getenv (inp : inputs) (k : str) : option str :=
  (environ inp ∪ dotenv inp) !! k.

(** [not os.getenv(k)]: unset or empty. *)
Definition unset (inp : inputs) (k : str) : bool :=
  match getenv inp k with
  | None => true
  | Some v => negb (truthy v)
  end.

Definition page_size : nat := 100.

(** The DQL filter [metadata.source.url::"<url>"]. *)
Definition filter_query (url : str) : str :=
  lit "metadata.source.url::" ++ [dquote] ++ url ++ [dquote].

(** The [for doc in results] loop of [find_documents_by_url]. *)
Definition collect_step (doc_ids : list str) (doc : result_obj) : list str :=
  match doc_document_id doc with
  | Some doc_id => if truthy doc_id then doc_ids ++ [doc_id] else doc_ids
  | None => doc_ids
  end.

Definition collect_ids (doc_ids : list str) (results : list result_obj) : list str :=
  fold_left collect_step results doc_ids.

Definition is_nil {A} (l : list A) : bool :=
  match l with [] => true | _ :: _ => false end.

Section WithService.

Context {S : Type} (svc : service S).

Local Abbreviation M := (Script.M S).

Definition load_config (inp : inputs) : M config :=
  let missing := List.filter (unset inp) required in
  if is_nil missing then
    ret {| cfg_api_key := default [] (getenv inp (lit "DISCOVERY_API_KEY"));
           cfg_url := default [] (getenv inp (lit "DISCOVERY_URL"));
           cfg_project_id := default [] (getenv inp (lit "DISCOVERY_PROJECT_ID"));
           cfg_version := default (lit "2023-03-31") (getenv inp (lit "DISCOVERY_API_VERSION")) |}
  else
    print (lit "ERROR: Missing required config in .env: " ++ join (lit ", ") missing) ;;
    sys_exit 1.

Definition load_urls (inp : inputs) (filepath : str) : M (list str) :=
  match files inp !! filepath with
  | None =>
      print (lit "ERROR: URL file not found: " ++ filepath) ;;
      sys_exit 1
  | Some content => ret (load_urls_text content)
  end.

Definition create_client (cfg : config) : M client :=
  let discovery := Client (cfg_version cfg) (cfg_api_key cfg) (cfg_url cfg) in
  fun s => (Val discovery, s, [EvClient discovery]).

(** The list comprehension of [get_collections]: [c["collection_id"]]
    raises on an object without that key. *)
Fixpoint collection_pairs (cs : list collection_obj) : M (list (str * str)) :=
  match cs with
  | [] => ret []
  | c :: cs' =>
      match coll_collection_id c with
      | None => raise (KeyError (lit "collection_id"))
      | Some cid =>
          rest <- collection_pairs cs' ;;
          ret ((cid, default (lit "Unnamed") (coll_name c)) :: rest)
      end
  end.

Definition get_collections (discovery : client) (project_id : str) : M (list (str * str)) :=
  response <- api_call (svc_list_collections svc discovery project_id)
                       (EvListCollections project_id) ;;
  collection_pairs (default [] (resp_collections response)).

(** The [while True] loop of [find_documents_by_url], entered with the
    current [offset] and [doc_ids]; [fuel] bounds the number of
    iterations. *)
Fixpoint find_loop (fuel : nat) (discovery : client) (project_id collection_id url : str)
    (offset : nat) (doc_ids : list str) : M (list str) :=
  match fuel with
  | 0 => out_of_fuel
  | Datatypes.S fuel' =>
      let request :=
        {| q_project_id := project_id;
           q_collection_ids := [collection_id];
           q_filter := filter_query url;
           q_return := [lit "document_id"; lit "metadata.source.url"];
           q_count := page_size;
           q_offset := offset |} in
      response <- api_call (svc_query svc discovery request) (EvQuery request) ;;
      let results := default [] (resp_results response) in
      if is_nil results then ret doc_ids
      else
        let doc_ids' := collect_ids doc_ids results in
        if length results <? page_size then ret doc_ids'
        else find_loop fuel' discovery project_id collection_id url
                       (offset + page_size) doc_ids'
  end.

Definition find_documents_by_url (fuel : nat) (discovery : client)
    (project_id collection_id url : str) : M (list str) :=
  find_loop fuel discovery project_id collection_id url 0 [].

Definition delete_document (discovery : client)
    (project_id collection_id document_id : str) : M bool :=
  let request := DeleteRequest project_id collection_id document_id in
  response <- api_call (svc_delete_document svc discovery request) (EvDelete request) ;;
  ret (bool_decide (resp_status response = Some (lit "deleted"))).

(** The body of [for doc_id in doc_ids]: the [try] statement. *)
Definition delete_step (discovery : client) (project_id url collection_id collection_name : str)
    (doc_id : str) (t : tally) : M tally :=
  try_except
    (success <- delete_document discovery project_id collection_id doc_id ;;
     if success then
       print (lit "  Deleted doc " ++ doc_id ++ lit " from '" ++ collection_name ++ lit "'") ;;
       ret (count_deleted t)
     else
       print (lit "  WARNING: Unexpected status deleting doc " ++ doc_id
              ++ lit " from '" ++ collection_name ++ lit "'") ;;
       ret (append_error t (url, doc_id, collection_name, lit "unexpected status")))
    (fun e =>
       print (lit "  ERROR deleting doc " ++ doc_id ++ lit " from '" ++ collection_name
              ++ lit "': " ++ exn_str e) ;;
       ret (append_error t (url, doc_id, collection_name, exn_str e))).

(** [for doc_id in doc_ids]. *)
Fixpoint delete_loop (discovery : client) (project_id url collection_id collection_name : str)
    (doc_ids : list str) (t : tally) : M tally :=
  match doc_ids with
  | [] => ret t
  | doc_id :: rest =>
      t' <- delete_step discovery project_id url collection_id collection_name doc_id t ;;
      delete_loop discovery project_id url collection_id collection_name rest t'
  end.

(** [for collection_id, collection_name in collections], entered with the
    current value of [found_any]. *)
Fixpoint collections_loop (fuel : nat) (discovery : client) (project_id url : str)
    (collections : list (str * str)) (found_any : bool) (t : tally) : M (bool * tally) :=
  match collections with
  | [] => ret (found_any, t)
  | (collection_id, collection_name) :: rest =>
      doc_ids <- find_documents_by_url fuel discovery project_id collection_id url ;;
      if is_nil doc_ids then
        collections_loop fuel discovery project_id url rest found_any t
      else
        t' <- delete_loop discovery project_id url collection_id collection_name doc_ids t ;;
        collections_loop fuel discovery project_id url rest true t'
  end.

(** What follows the collection loop in the body of [for url in urls]. *)
Definition close_url (found_any : bool) (t : tally) : M tally :=
  if found_any then ret t
  else print (lit "  Not found in any collection.") ;; ret (count_not_found t).

(** The body of [for url in urls]. *)
Definition process_url (fuel : nat) (discovery : client) (project_id : str)
    (collections : list (str * str)) (url : str) (t : tally) : M tally :=
  print (lit "Processing: " ++ url) ;;
  r <- collections_loop fuel discovery project_id url collections false t ;;
  close_url (fst r) (snd r).

(** [for url in urls]. *)
Fixpoint urls_loop (fuel : nat) (discovery : client) (project_id : str)
    (collections : list (str * str)) (urls : list str) (t : tally) : M tally :=
  match urls with
  | [] => ret t
  | url :: rest =>
      t' <- process_url fuel discovery project_id collections url t ;;
      urls_loop fuel discovery project_id collections rest t'
  end.

Fixpoint print_all (lines : list str) : M unit :=
  match lines with
  | [] => ret tt
  | l :: ls => print l ;; print_all ls
  end.

Definition collection_line (c : str * str) : str :=
  lit "  - " ++ snd c ++ lit " (" ++ fst c ++ lit ")".

Definition error_line (e : str * str * str * str) : str :=
  let '(url, doc_id, cname, err) := e in
  lit "  " ++ url ++ lit " | doc " ++ doc_id ++ lit " in '" ++ cname ++ lit "': " ++ err.

(** The summary block; the leading line feed of the first [print] is part
    of the line. *)
Definition summary (urls : list str) (t : tally) : M unit :=
  print ([10%N] ++ lit "--- Summary ---") ;;
  print (lit "URLs processed:  " ++ of_nat (length urls)) ;;
  print (lit "Documents deleted: " ++ of_nat (total_deleted t)) ;;
  print (lit "URLs not found:  " ++ of_nat (total_not_found t)) ;;
  if is_nil (errors t) then ret tt
  else
    print (lit "Errors:          " ++ of_nat (length (errors t))) ;;
    print_all (map error_line (errors t)).

Definition url_file (inp : inputs) : str :=
  match argv inp with
  | _ :: path :: _ => path
  | _ => script_dir inp ++ lit "/urls_to_delete.txt"
  end.

Definition main (fuel : nat) (inp : inputs) : M unit :=
  cfg <- load_config inp ;;
  urls <- load_urls inp (url_file inp) ;;
  if is_nil urls then
    print (lit "No URLs found in input file. Nothing to do.") ;;
    sys_exit 0
  else
    print (lit "Loaded " ++ of_nat (length urls) ++ lit " URL(s) to delete.") ;;
    discovery <- create_client cfg ;;
    let project_id := cfg_project_id cfg in
    collections <- get_collections discovery project_id ;;
    if is_nil collections then
      print (lit "ERROR: No collections found in the project.") ;;
      sys_exit 1
    else
      print (lit "Found " ++ of_nat (length collections) ++ lit " collection(s):") ;;
      print_all (map collection_line collections) ;;
      print [] ;;
      t <- urls_loop fuel discovery project_id collections urls (Tally 0 0 []) ;;
      summary urls t.

End WithService.

(** The exit status of the process: 0 when [main] returns, the argument
    of [sys.exit], 1 when an exception reaches the top level. *)
Definition exit_status {A} (r : res A) : option nat :=
  match r with
  | Val _ => Some 0
  | Exit code => Some code
  | Raise _ => Some 1
  | Fuel => None
  end.

(** ** Reference definitions used in the statements *)

(** The lines [load_urls] keeps, said without the loop. *)
Definition kept (stripped : str) : bool :=
  truthy stripped && negb (startswith (lit "#") stripped).

(** ** Reading the configuration *)

(** All required configuration values are set and not empty. *)
Definition complete (inp : inputs) : bool :=
  forallb (fun k => negb (unset inp k)) required.

(** The dictionary [load_config] returns when it returns. *)
Definition config_of (inp : inputs) : config :=
  {| cfg_api_key := default [] (getenv inp (lit "DISCOVERY_API_KEY"));
     cfg_url := default [] (getenv inp (lit "DISCOVERY_URL"));
     cfg_project_id := default [] (getenv inp (lit "DISCOVERY_PROJECT_ID"));
     cfg_version := default (lit "2023-03-31") (getenv inp (lit "DISCOVERY_API_VERSION")) |}.

(** The client [create_client] builds from it. *)
Definition client_of (inp : inputs) : client :=
  Client (cfg_version (config_of inp)) (cfg_api_key (config_of inp)) (cfg_url (config_of inp)).

(** The exit status of a run of [main]. *)
Definition status_of_run {S A} (run : res A * S * list event) : option nat :=
  exit_status (fst (fst run)).

(** ** Reading the event log *)

(** The requests of the [delete_document] calls, in order. *)
Definition delete_requests (evs : list event) : list delete_request :=
  omap (fun ev => match ev with EvDelete r _ => Some r | _ => None end) evs.

(** Did a [delete_document] call return the status "deleted"? *)
Definition returned_deleted (o : outcome delete_response) : bool :=
  match o with
  | Returned r => bool_decide (resp_status r = Some (lit "deleted"))
  | Raised _ => false
  end.

(** The requests of the [delete_document] calls that returned the status
    "deleted", in order. *)
Definition deleted_calls (evs : list event) : list delete_request :=
  omap (fun ev => match ev with
                  | EvDelete r o => if returned_deleted o then Some r else None
                  | _ => None
                  end) evs.

(** The [query] calls, in order. *)
Definition query_requests (evs : list event) : list query_request :=
  omap (fun ev => match ev with EvQuery r _ => Some r | _ => None end) evs.

(** What one [delete_document] call does to the accumulators, and the
    console line that goes with it, read off the outcome of the call. *)
Definition tally_after (url collection_name doc_id : str) (t : tally)
    (o : outcome delete_response) : tally :=
  match o with
  | Returned r =>
      if bool_decide (resp_status r = Some (lit "deleted")) then count_deleted t
      else append_error t (url, doc_id, collection_name, lit "unexpected status")
  | Raised e => append_error t (url, doc_id, collection_name, exn_str e)
  end.

Definition line_after (collection_name doc_id : str) (o : outcome delete_response) : str :=
  match o with
  | Returned r =>
      if bool_decide (resp_status r = Some (lit "deleted"))
      then lit "  Deleted doc " ++ doc_id ++ lit " from '" ++ collection_name ++ lit "'"
      else lit "  WARNING: Unexpected status deleting doc " ++ doc_id
           ++ lit " from '" ++ collection_name ++ lit "'"
  | Raised e =>
      lit "  ERROR deleting doc " ++ doc_id ++ lit " from '" ++ collection_name
      ++ lit "': " ++ exn_str e
  end.

(** ** Reading query responses *)

(** [response.get("results", [])]. *)
Definition results_of (r : query_response) : list result_obj :=
  default [] (resp_results r).

(** The document id of a result object, when it has one. *)
Definition id_of (doc : result_obj) : option str :=
  match doc_document_id doc with
  | Some doc_id => if truthy doc_id then Some doc_id else None
  | None => None
  end.

(** The document ids of a page, in page order. *)
Definition page_ids (results : list result_obj) : list str := omap id_of results.

(** The document ids of all pages returned by the [query] calls of a log. *)
Definition found_ids (evs : list event) : list str :=
  concat (map (fun ev => match ev with
                         | EvQuery _ (Returned r) => page_ids (results_of r)
                         | _ => []
                         end) evs).

(** The request [find_documents_by_url] sends for the page at [offset]. *)
Definition request_at (project_id collection_id url : str) (offset : nat) : query_request :=
  {| q_project_id := project_id;
     q_collection_ids := [collection_id];
     q_filter := filter_query url;
     q_return := [lit "document_id"; lit "metadata.source.url"];
     q_count := page_size;
     q_offset := offset |}.

(** The log of successive page requests from [offset] on, answered by
    [resps]. *)
Fixpoint query_log (project_id collection_id url : str) (offset : nat)
    (resps : list query_response) : list event :=
  match resps with
  | [] => []
  | r :: rs =>
      EvQuery (request_at project_id collection_id url offset) (Returned r)
      :: query_log project_id collection_id url (offset + page_size) rs
  end.

(** The service, started in state [s] and asked for successive pages from
    [offset] on, answers with [resps] and is left in state [s']. *)
Fixpoint served {S : Type} (svc : service S) (discovery : client)
    (project_id collection_id url : str) (offset : nat) (s : S)
    (resps : list query_response) (s' : S) : Prop :=
  match resps with
  | [] => s' = s
  | r :: rs =>
      exists s1,
        svc_query svc discovery (request_at project_id collection_id url offset) s
          = (Returned r, s1)
        /\ served svc discovery project_id collection_id url (offset + page_size) s1 rs s'
  end.

(** A log made of [query] calls only. *)
Definition only_queries (evs : list event) : Prop :=
  Forall (fun ev => exists r o, ev = EvQuery r o) evs.

(** ** Book-keeping read off the log *)

(** The requests of the [delete_document] calls that raised or returned
    another status than "deleted", in order. *)
Definition failed_calls (evs : list event) : list delete_request :=
  omap (fun ev => match ev with
                  | EvDelete r o => if returned_deleted o then None else Some r
                  | _ => None
                  end) evs.

(** The document id of an error record. *)
Definition error_doc (e : str * str * str * str) : str := snd (fst (fst e)).

(** The accumulators [t'] account for the calls of [evs] made since they
    were [t]: one more deletion per call that returned "deleted", one more
    error record per other call, in call order. *)
Definition accounted (t : tally) (evs : list event) (t' : tally) : Prop :=
  total_deleted t' = total_deleted t + length (deleted_calls evs)
  /\ exists later,
       errors t' = errors t ++ later
       /\ map error_doc later = map d_document_id (failed_calls evs).

(** A computation of the URL loop can only be cut short by a [query] call
    that raises (or, in the model, by the iteration budget): it never calls
    [sys.exit], and an exception that leaves it is the one of its last
    event, a [query] call. *)
Definition cut_by_query {A} (r : res A) (evs : list event) : Prop :=
  match r with
  | Raise e => exists q evs0, evs = evs0 ++ [EvQuery q (Raised e)]
  | Exit _ => False
  | Val _ | Fuel => True
  end.

(** ** The rest of the run from a point inside the loops *)

Section Resume.

Context {S : Type} (svc : service S).
Variables (fuel : nat) (discovery : client) (project_id : str).
Variable collections : list (str * str).

(** The rest of the URL loop, taken up at the top of the collection loop
    of [url]: [todo] are the collections still to search, [rest_urls] the
    URLs after [url]. *)
Definition resume_collections (url : str) (todo : list (str * str)) (found_any : bool)
    (rest_urls : list str) (t : tally) : M S tally :=
  r <- collections_loop svc fuel discovery project_id url todo found_any t ;;
  t' <- close_url (fst r) (snd r) ;;
  urls_loop svc fuel discovery project_id collections rest_urls t'.

(** The rest of the URL loop, taken up inside the delete loop of a
    collection of [url]: [doc_ids] are the documents still to delete. *)
Definition resume_docs (url collection_id collection_name : str) (doc_ids : list str)
    (todo : list (str * str)) (rest_urls : list str) (t : tally) : M S tally :=
  t' <- delete_loop svc discovery project_id url collection_id collection_name doc_ids t ;;
  resume_collections url todo true rest_urls t'.


End Resume.

(** ** Concrete inputs and services *)

Module Demo.

Definition url_a : str := lit "https://a.example/x".

Definition list_path : str := lit "/opt/tool/urls_to_delete.txt".

(** A URL, a comment, a blank line and the URL again, padded. *)
Definition list_text : str :=
  url_a ++ [10%N] ++ lit "# comment" ++ [10; 10]%N ++ lit "  " ++ url_a ++ lit " " ++ [10%N].

Definition full_env : gmap str str :=
  {[ lit "DISCOVERY_API_KEY" := lit "key";
     lit "DISCOVERY_URL" := lit "https://api.example";
     lit "DISCOVERY_PROJECT_ID" := lit "p1" ]}.

Definition inputs_ok : inputs :=
  {| argv := [lit "delete_urls.py"];
     script_dir := lit "/opt/tool";
     environ := full_env;
     dotenv := ∅;
     files := {[ list_path := list_text ]} |}.

Definition client_ok : client :=
  Client (lit "2023-03-31") (lit "key") (lit "https://api.example").

Definition doc (id : str) : result_obj := ResultObj (Some id).

(** A page of [page_size] results and a page of two. *)
Definition full_page : query_response :=
  QueryResponse (Some (replicate page_size (doc (lit "d")))).

Definition short_page : query_response :=
  QueryResponse (Some [doc (lit "e"); doc (lit "f")]).

(** A service that answers the [query] calls with the responses it holds,
    one per call whatever the request, and with an empty response once
    they are used up; it has one collection and deletes what it is asked
    to delete. *)
Definition scripted : service (list query_response) :=
  {| svc_list_collections := fun _ _ s =>
       (Returned (CollectionsResponse
                    (Some [CollectionObj (Some (lit "c1")) (Some (lit "A"))])), s);
     svc_query := fun _ _ s =>
       match s with
       | [] => (Returned (QueryResponse None), [])
       | r :: rest => (Returned r, rest)
       end;
     svc_delete_document := fun _ _ s =>
       (Returned (DeleteResponse (Some (lit "deleted"))), s) |}.

Definition two_collections : collections_response :=
  CollectionsResponse
    (Some [CollectionObj (Some (lit "c1")) (Some (lit "A"));
           CollectionObj (Some (lit "c2")) (Some (lit "B"))]).

(** A service without memory: every [query] call and every
    [delete_document] call has the same outcome. *)
Definition fixed (q : outcome query_response) (d : outcome delete_response) : service unit :=
  {| svc_list_collections := fun _ _ s => (Returned two_collections, s);
     svc_query := fun _ _ s => (q, s);
     svc_delete_document := fun _ _ s => (d, s) |}.

Definition one_match : outcome query_response :=
  Returned (QueryResponse (Some [doc (lit "d1")])).

Definition deleted_ok : outcome delete_response :=
  Returned (DeleteResponse (Some (lit "deleted"))).

Definition server_error : exn :=
  ServiceError (lit "Error: Internal Server Error, Status code: 500").

(** The index keeps returning the document and every delete succeeds. *)
Definition sticky : service unit := fixed one_match deleted_ok.

(** Every delete raises. *)
Definition failing : service unit := fixed one_match (Raised server_error).


(** Every delete raises an exception whose text is "unexpected status". *)
Definition raising_text : service unit :=
  fixed one_match (Raised (ServiceError (lit "unexpected status"))).

(** Every delete returns the status "failed". *)
Definition odd_status : service unit :=
  fixed one_match (Returned (DeleteResponse (Some (lit "failed")))).

(** Nothing matches anywhere. *)
Definition empty_index : service unit :=
  fixed (Returned (QueryResponse (Some []))) deleted_ok.

(** A page of three results of which the second has no id. *)
Definition gap_page : outcome query_response :=
  Returned (QueryResponse (Some [doc (lit "d1"); ResultObj None; doc (lit "d3")])).

Definition gappy : service unit := fixed gap_page deleted_ok.

Definition collections_ab : list (str * str) :=
  [(lit "c1", lit "A"); (lit "c2", lit "B")].

Definition start : tally := Tally 0 0 [].

(** The same start with an empty URL file, with no URL file, and without
    the API key. *)
Definition inputs_empty_list : inputs :=
  {| argv := [lit "delete_urls.py"];
     script_dir := lit "/opt/tool";
     environ := full_env;
     dotenv := ∅;
     files := {[ list_path := (lit "# nothing here" ++ [10%N]) ]} |}.

Definition inputs_no_list : inputs :=
  {| argv := [lit "delete_urls.py"; lit "/tmp/missing.txt"];
     script_dir := lit "/opt/tool";
     environ := full_env;
     dotenv := ∅;
     files := {[ list_path := list_text ]} |}.

Definition inputs_no_key : inputs :=
  {| argv := [lit "delete_urls.py"];
     script_dir := lit "/opt/tool";
     environ := delete (lit "DISCOVERY_API_KEY") full_env;
     dotenv := {[ lit "DISCOVERY_API_KEY" := [] ]};
     files := {[ list_path := list_text ]} |}.


End Demo.

(** ** Reference definitions for the further properties *)

(** A URL list entry that survives loading unchanged: kept by the loader,
    without whitespace at either end, without a line boundary inside. *)
Definition clean (u : str) : Prop :=
  kept u = true /\ strip u = u /\ Forall (fun c => is_linebreak c = false) u.

(** The text of a file with one entry per line, each line ended by a
    line feed. *)
Definition lines_text (urls : list str) : str :=
  concat (map (fun u => u ++ [10%N]) urls).

(** The pair [get_collections] makes of a collection object. *)
Definition pair_of (c : collection_obj) : option (str * str) :=
  match coll_collection_id c with
  | Some cid => Some (cid, default (lit "Unnamed") (coll_name c))
  | None => None
  end.

(** Concrete inputs for the further properties. *)
Module Cases.

Definition url_b : str := lit "https://b.example/y#top".

(** A collection without a name, and one without an id. *)
Definition unnamed : collection_obj := CollectionObj (Some (lit "c9")) None.


Definition listing (cs : list collection_obj) : service unit :=
  {| svc_list_collections := fun _ _ s => (Returned (CollectionsResponse (Some cs)), s);
     svc_query := fun _ _ s => (Demo.one_match, s);
     svc_delete_document := fun _ _ s => (Demo.deleted_ok, s) |}.

(** The project cannot be listed. *)
Definition unlisted : service unit :=
  {| svc_list_collections := fun _ _ s => (Raised Demo.server_error, s);
     svc_query := fun _ _ s => (Demo.one_match, s);
     svc_delete_document := fun _ _ s => (Demo.deleted_ok, s) |}.

(** Every page is full. *)
Definition endless : service unit := Demo.fixed (Returned Demo.full_page) Demo.deleted_ok.

End Cases.

(** ** More readings of the log *)

(** The first-page requests of a log: every search starts with one. *)
Definition first_pages (evs : list event) : list query_request :=
  List.filter (fun q => q_offset q =? 0) (query_requests evs).

(** The searches of a run that goes through [urls] and, for each of
    them, through [collections]: URLs outside, collections inside. *)
Definition searches (project_id : str) (collections : list (str * str))
    (urls : list str) : list query_request :=
  flat_map (fun url => map (fun c => request_at project_id (fst c) url 0) collections) urls.

(** The URL and the collection name of an error record. *)
Definition error_url (e : str * str * str * str) : str := fst (fst (fst e)).

Definition error_collection (e : str * str * str * str) : str := snd (fst e).

(** Events of the loops: console lines, searches and deletes. *)
Definition loop_event (ev : event) : Prop :=
  match ev with
  | EvPrint _ | EvQuery _ _ | EvDelete _ _ => True
  | EvClient _ | EvListCollections _ _ => False
  end.

(** Events that are no call of [query] or [delete_document]. *)
Definition quiet_event (ev : event) : Prop :=
  match ev with
  | EvQuery _ _ | EvDelete _ _ => False
  | EvPrint _ | EvClient _ | EvListCollections _ _ => True
  end.

(** The client creations and the list calls of a log. *)
Definition client_events (evs : list event) : list client :=
  omap (fun ev => match ev with EvClient c => Some c | _ => None end) evs.

Definition list_calls (evs : list event) : list str :=
  omap (fun ev => match ev with EvListCollections p _ => Some p | _ => None end) evs.

(** Every [delete_document] call of [dels] is for [project_id], for a
    collection allowed by [ok_collection], and for a document that a
    [query] call of [evs] returned for that very collection and for a URL
    allowed by [ok_url]. *)
Definition justified_in (project_id : str) (ok_url ok_collection : str -> Prop)
    (dels evs : list event) : Prop :=
  forall req,
    req ∈ delete_requests dels ->
    d_project_id req = project_id
    /\ ok_collection (d_collection_id req)
    /\ exists url i resp obj,
         ok_url url
         /\ EvQuery (request_at project_id (d_collection_id req) url (100 * i))
                    (Returned resp) ∈ evs
         /\ obj ∈ results_of resp
         /\ doc_document_id obj = Some (d_document_id req).

(** * Properties *)

(** ** Strings and the input loader *)

Section LoaderFacts.

Lemma load_urls_fold (lines : list str) (acc : list str) :
  fold_left load_urls_step lines acc = acc ++ List.filter kept (map strip lines).
Proof.
  revert acc. induction lines as [|l ls IH]; intros acc; simpl.
  - by rewrite app_nil_r.
  - rewrite IH. unfold load_urls_step, kept.
    destruct (truthy (strip l) && negb (startswith (lit "#") (strip l))); simpl.
    + by rewrite <- app_assoc.
    + done.
Qed.

Lemma lstrip_split (s : str) :
  exists pre, s = pre ++ lstrip s /\ Forall (fun c => is_space c = true) pre.
Proof.
  induction s as [|c s IH]; simpl.
  - exists []. by split.
  - destruct (is_space c) eqn:E.
    + destruct IH as (pre & Hs & Hpre). exists (c :: pre). split.
      * simpl. by rewrite <- Hs.
      * by constructor.
    + exists []. by split.
Qed.

Lemma lstrip_head (c : N) (s : str) : is_space c = false -> lstrip (c :: s) = c :: s.
Proof. intros E. simpl. by rewrite E. Qed.

Lemma lstrip_lstrip (s : str) : lstrip (lstrip s) = lstrip s.
Proof.
  induction s as [|c s IH]; simpl; [done|].
  destruct (is_space c) eqn:E; [done|]. by apply lstrip_head.
Qed.

Lemma lstrip_cases (s : str) :
  lstrip s = [] \/ exists c s', lstrip s = c :: s' /\ is_space c = false.
Proof.
  induction s as [|c s IH]; simpl; [by left|].
  destruct (is_space c) eqn:E; [done|]. right. by exists c, s.
Qed.

Lemma rstrip_rstrip (s : str) : rstrip (rstrip s) = rstrip s.
Proof. unfold rstrip. by rewrite rev_involutive, lstrip_lstrip. Qed.

Lemma rstrip_split (s : str) :
  exists post, s = rstrip s ++ post /\ Forall (fun c => is_space c = true) post.
Proof.
  destruct (lstrip_split (rev s)) as (pre & Hs & Hpre).
  exists (rev pre). split.
  - unfold rstrip. rewrite <- rev_app_distr, <- Hs. by rewrite rev_involutive.
  - rewrite Forall_forall in *. intros c Hc. apply Hpre.
    apply list_elem_of_In, in_rev. by apply list_elem_of_In.
Qed.

Lemma rstrip_head (c : N) (s : str) :
  is_space c = false -> exists s', rstrip (c :: s) = c :: s'.
Proof.
  intros E. destruct (rstrip_split (c :: s)) as (post & Hs & Hpost).
  destruct (rstrip (c :: s)) as [|c' s'] eqn:R.
  - simpl in Hs. subst post. apply Forall_cons in Hpost as [Hc _]. congruence.
  - simpl in Hs. injection Hs as -> _. by exists s'.
Qed.

Lemma strip_strip (s : str) : strip (strip s) = strip s.
Proof.
  unfold strip.
  destruct (lstrip_cases s) as [-> | (c & s' & -> & E)]; [done|].
  destruct (rstrip_head c s' E) as (s'' & R).
  rewrite R at 1. rewrite (lstrip_head c s'' E), <- R. apply rstrip_rstrip.
Qed.

End LoaderFacts.

(** C3: on a file whose text is [content], [load_urls] returns the
    stripped lines that are neither empty nor comments: the same lines,
    in the same order, duplicates included, as filtering the stripped
    lines of the file.  Nothing in the result is empty, starts with [#]
    or has whitespace left to strip. *)
Theorem load_urls_keeps_exactly {S : Type} (inp : inputs) (filepath content : str) (s : S) :
  files inp !! filepath = Some content ->
  load_urls inp filepath s
    = (Val (List.filter kept (map strip (splitlines content))), s, [])
  /\ Forall (fun u => u <> [] /\ startswith (lit "#") u = false /\ strip u = u)
            (List.filter kept (map strip (splitlines content))).
Proof.
  intros Hfile. split.
  - unfold load_urls. rewrite Hfile. unfold load_urls_text, ret.
    by rewrite load_urls_fold.
  - apply Forall_forall. intros u Hu.
    apply list_elem_of_In, filter_In in Hu as [Hin Hkept].
    apply in_map_iff in Hin as (l & <- & _).
    unfold kept in Hkept. apply andb_prop in Hkept as [Ht Hc].
    repeat split.
    + intros E. by rewrite E in Ht.
    + by apply negb_true_iff in Hc.
    + apply strip_strip.
Qed.

Lemma load_urls_keeps_exactly_witness :
  files Demo.inputs_ok !! Demo.list_path = Some Demo.list_text
  /\ load_urls Demo.inputs_ok Demo.list_path tt = (Val [Demo.url_a; Demo.url_a], tt, []).
Proof.
  split; [by vm_compute|].
  apply (load_urls_keeps_exactly Demo.inputs_ok Demo.list_path Demo.list_text tt).
  by vm_compute.
Defined.

(** ** Running the monad *)

Section ScriptFacts.

Context {S : Type}.

Lemma bind_val {A B} (m : M S A) (k : A -> M S B) (s s1 : S) (a : A) (ev1 : list event) :
  m s = (Val a, s1, ev1) ->
  bind m k s = (let '(r2, s2, ev2) := k a s1 in (r2, s2, ev1 ++ ev2)).
Proof. intros H. unfold bind. by rewrite H. Qed.


Lemma bind_exit {A B} (m : M S A) (k : A -> M S B) (s s1 : S) (code : nat) (ev1 : list event) :
  m s = (Exit code, s1, ev1) -> bind m k s = (Exit code, s1, ev1).
Proof. intros H. unfold bind. by rewrite H. Qed.

Lemma bind_fuel {A B} (m : M S A) (k : A -> M S B) (s s1 : S) (ev1 : list event) :
  m s = (Fuel, s1, ev1) -> bind m k s = (Fuel, s1, ev1).
Proof. intros H. unfold bind. by rewrite H. Qed.

(** A [bind] that ends with a value ran both of its parts. *)
Lemma bind_val_inv {A B} (m : M S A) (k : A -> M S B) (s s2 : S) (b : B) (evs : list event) :
  bind m k s = (Val b, s2, evs) ->
  exists a s1 ev1 ev2,
    m s = (Val a, s1, ev1) /\ k a s1 = (Val b, s2, ev2) /\ evs = ev1 ++ ev2.
Proof.
  unfold bind. destruct (m s) as [[r s1] ev1]. destruct r as [a|e|c|]; try discriminate.
  destruct (k a s1) as [[r2 s2'] ev2] eqn:K. intros [= -> -> <-].
  by exists a, s1, ev1, ev2.
Qed.

(** Either the first part of a [bind] stops the whole, or the second
    part runs after it. *)
Lemma bind_inv {A B} (m : M S A) (k : A -> M S B) (s s2 : S) (r : res B) (evs : list event) :
  bind m k s = (r, s2, evs) ->
  (exists r1, m s = (r1, s2, evs) /\ stopped_as r1 r)
  \/ (exists a s1 ev1 ev2,
        m s = (Val a, s1, ev1) /\ k a s1 = (r, s2, ev2) /\ evs = ev1 ++ ev2).
Proof.
  unfold bind. destruct (m s) as [[r1 s1] ev1]. destruct r1 as [a|e|c|].
  - destruct (k a s1) as [[r2 s2'] ev2] eqn:K. intros [= -> -> <-].
    right. by exists a, s1, ev1, ev2.
  - intros [= <- <- <-]. left. by exists (Raise e).
  - intros [= <- <- <-]. left. by exists (Exit c).
  - intros [= <- <- <-]. left. by exists Fuel.
Qed.

End ScriptFacts.

(** ** One delete attempt *)

Section DeleteFacts.

Context {S : Type} (svc : service S).
Variables (discovery : client) (project_id : str).

(** The [try] statement never lets anything escape: it makes one call,
    prints one line and returns the updated accumulators. *)
Lemma delete_step_run (url collection_id collection_name doc_id : str) (t : tally) (s : S) :
  delete_step svc discovery project_id url collection_id collection_name doc_id t s
  = (let request := DeleteRequest project_id collection_id doc_id in
     let '(o, s1) := svc_delete_document svc discovery request s in
     (Val (tally_after url collection_name doc_id t o), s1,
      [EvDelete request o; EvPrint (line_after collection_name doc_id o)])).
Proof.
  unfold delete_step, try_except, delete_document, bind, api_call, print, ret. simpl.
  destruct (svc_delete_document svc discovery _ s) as [[r|e] s1]; simpl.
  - by destruct (bool_decide (resp_status r = Some (lit "deleted"))).
  - done.
Qed.

End DeleteFacts.

(** ** Paging through the results of a query *)

Section FindFacts.

Context {S : Type} (svc : service S).
Variables (discovery : client) (project_id collection_id url : str).

Lemma collect_ids_app (results : list result_obj) (acc : list str) :
  collect_ids acc results = acc ++ page_ids results.
Proof.
  unfold collect_ids, page_ids. revert acc.
  induction results as [|doc rest IH]; intros acc; simpl.
  - by rewrite app_nil_r.
  - rewrite IH. unfold collect_step, id_of.
    destruct (doc_document_id doc) as [d|]; [|done].
    destruct (truthy d); [|done]. by rewrite <- app_assoc.
Qed.

Lemma found_ids_app (ev1 ev2 : list event) :
  found_ids (ev1 ++ ev2) = found_ids ev1 ++ found_ids ev2.
Proof. unfold found_ids. by rewrite map_app, concat_app. Qed.

Lemma only_queries_app (ev1 ev2 : list event) :
  only_queries ev1 -> only_queries ev2 -> only_queries (ev1 ++ ev2).
Proof. unfold only_queries. intros. by apply Forall_app. Qed.

Lemma only_queries_no_delete (evs : list event) :
  only_queries evs -> delete_requests evs = [] /\ deleted_calls evs = [].
Proof.
  induction 1 as [|ev evs (r & o & ->) _ [IH1 IH2]]; [done|].
  by split.
Qed.

(** One iteration of the loop, unfolded on the outcome of its call. *)
Lemma find_loop_step (fuel offset : nat) (acc : list str) (s : S) :
  find_loop svc (Datatypes.S fuel) discovery project_id collection_id url offset acc s
  = (let request := request_at project_id collection_id url offset in
     match svc_query svc discovery request s with
     | (Raised e, s1) => (Raise e, s1, [EvQuery request (Raised e)])
     | (Returned r, s1) =>
         if is_nil (results_of r) then (Val acc, s1, [EvQuery request (Returned r)])
         else if length (results_of r) <? page_size
         then (Val (acc ++ page_ids (results_of r)), s1, [EvQuery request (Returned r)])
         else
           let '(r2, s2, ev2) :=
             find_loop svc fuel discovery project_id collection_id url
                       (offset + page_size) (acc ++ page_ids (results_of r)) s1 in
           (r2, s2, EvQuery request (Returned r) :: ev2)
     end).
Proof.
  cbn [find_loop]. unfold bind, api_call, request_at, results_of.
  destruct (svc_query svc discovery _ s) as [[r|e] s1]; [|done].
  destruct (is_nil (default [] (resp_results r))); [done|].
  rewrite collect_ids_app.
  destruct (length (default [] (resp_results r)) <? page_size); [done|].
  by destruct (find_loop _ _ _ _ _ _ _ _ _) as [[r2 s2] ev2].
Qed.

(** Whatever its end, the loop only makes [query] calls, and the list it
    returns is the list it was entered with followed by the ids of the
    pages it received. *)
Lemma find_loop_spec (fuel offset : nat) (acc : list str) (s s' : S)
    (r : res (list str)) (evs : list event) :
  find_loop svc fuel discovery project_id collection_id url offset acc s = (r, s', evs) ->
  only_queries evs
  /\ cut_by_query r evs
  /\ (forall ids, r = Val ids -> ids = acc ++ found_ids evs).
Proof.
  revert offset acc s s' r evs.
  induction fuel as [|fuel IH]; intros offset acc s s' r evs.
  - intros [= <- <- <-]. split; [constructor|by split].
  - rewrite find_loop_step. cbv zeta.
    destruct (svc_query svc discovery _ s) as [[resp|e] s1].
    + assert (Hq : only_queries [EvQuery (request_at project_id collection_id url offset)
                                         (Returned resp)]).
      { repeat constructor. by eexists _, _. }
      destruct (is_nil (results_of resp)) eqn:Hnil.
      * intros [= <- <- <-]. split; [done|split; [done|]].
        intros ids [= <-]. destruct (results_of resp) eqn:R; [|done].
        unfold found_ids. simpl. rewrite R. simpl. by rewrite app_nil_r.
      * destruct (length (results_of resp) <? page_size).
        -- intros [= <- <- <-]. split; [done|split; [done|]].
           intros ids [= <-]. unfold found_ids. simpl. by rewrite app_nil_r.
        -- destruct (find_loop _ _ _ _ _ _ _ _ _) as [[r2 s2] ev2] eqn:Hrec.
           intros [= <- <- <-]. apply IH in Hrec as (Hq2 & Hcut & Hids).
           split; [|split].
           ++ by apply (only_queries_app [_]).
           ++ destruct r2 as [ids|e|c|]; try done.
              destruct Hcut as (q & evs0 & ->).
              exists q, (EvQuery (request_at project_id collection_id url offset)
                                 (Returned resp) :: evs0). done.
           ++ intros ids Hr. rewrite (Hids ids Hr), <- app_assoc. f_equal.
    + intros [= <- <- <-]. split; [|split; [|done]].
      * repeat constructor. by eexists _, _.
      * by exists (request_at project_id collection_id url offset), [].
Qed.

(** The service answers the successive page requests with full pages
    [full] and then a short page [last]: the loop makes exactly these
    calls and returns all the ids, provided it may iterate that often. *)
Lemma find_loop_pages (full : list query_response) (last : query_response)
    (fuel offset : nat) (acc : list str) (s s' : S) :
  Forall (fun r => page_size <= length (results_of r)) full ->
  length (results_of last) < page_size ->
  served svc discovery project_id collection_id url offset s (full ++ [last]) s' ->
  length full < fuel ->
  find_loop svc fuel discovery project_id collection_id url offset acc s
  = (Val (acc ++ concat (map (fun r => page_ids (results_of r)) (full ++ [last]))), s',
     query_log project_id collection_id url offset (full ++ [last])).
Proof.
  revert fuel offset acc s.
  induction full as [|r full IH]; intros fuel offset acc s Hfull Hlast Hserved Hfuel.
  - destruct fuel as [|fuel]; [lia|]. simpl in Hserved.
    destruct Hserved as (s1 & Hq & ->).
    rewrite find_loop_step. cbv zeta. rewrite Hq. simpl.
    apply Nat.ltb_lt in Hlast. rewrite Hlast.
    destruct (results_of last) as [|d ds]; simpl; by rewrite !app_nil_r.
  - destruct fuel as [|fuel]; [simpl in Hfuel; lia|]. simpl in Hserved.
    destruct Hserved as (s1 & Hq & Hrest).
    apply Forall_cons in Hfull as [Hr Hfull].
    rewrite find_loop_step. cbv zeta. rewrite Hq.
    destruct (results_of r) as [|d ds] eqn:R; [unfold page_size in Hr; simpl in Hr; lia|].
    cbn [is_nil]. apply Nat.ltb_ge in Hr. rewrite Hr.
    rewrite (IH fuel (offset + page_size) (acc ++ page_ids (d :: ds)) s1 Hfull Hlast Hrest);
      [|simpl in Hfuel; lia].
    simpl. by rewrite R, <- app_assoc.
Qed.

End FindFacts.

Section Pagination.

Context {S : Type} (svc : service S).
Variables (discovery : client) (project_id collection_id url : str).

Lemma query_requests_log (offset : nat) (resps : list query_response) :
  query_requests (query_log project_id collection_id url offset resps)
  = map (fun i => request_at project_id collection_id url (offset + i * page_size))
        (seq 0 (length resps)).
Proof.
  revert offset. induction resps as [|r rs IH]; intros offset; [done|].
  cbn [query_log length seq map].
  change (query_requests (EvQuery ?q ?o :: ?l)) with (q :: query_requests l).
  rewrite IH, Nat.add_0_r. f_equal.
  rewrite <- seq_shift, map_map. apply map_ext. intros i. f_equal.
  unfold page_size. lia.
Qed.

Lemma length_query_log (offset : nat) (resps : list query_response) :
  length (query_log project_id collection_id url offset resps) = length resps.
Proof.
  revert offset. induction resps as [|r rs IH]; intros offset; [done|].
  simpl. by rewrite IH.
Qed.

(** C1: when the service answers the successive page requests with full
    pages and then a page shorter than the page size (possibly empty),
    [find_documents_by_url] returns the ids of all pages in page order,
    after exactly one call per page: page [i] is requested with count 100
    at offset [100 * i], and the short page is the last call. *)
Theorem find_documents_by_url_pages (full : list query_response) (last : query_response)
    (fuel : nat) (s s' : S) :
  Forall (fun r => page_size <= length (results_of r)) full ->
  length (results_of last) < page_size ->
  served svc discovery project_id collection_id url 0 s (full ++ [last]) s' ->
  length full < fuel ->
  exists evs,
    find_documents_by_url svc fuel discovery project_id collection_id url s
    = (Val (concat (map (fun r => page_ids (results_of r)) (full ++ [last]))), s', evs)
    /\ evs = query_log project_id collection_id url 0 (full ++ [last])
    /\ length evs = Datatypes.S (length full)
    /\ query_requests evs
       = map (fun i => request_at project_id collection_id url (100 * i))
             (seq 0 (Datatypes.S (length full)))
    /\ Forall (fun q => q_count q = 100) (query_requests evs).
Proof.
  intros Hfull Hlast Hserved Hfuel. eexists. split; [|split; [reflexivity|]].
  - unfold find_documents_by_url.
    by rewrite (find_loop_pages svc discovery project_id collection_id url
                  full last fuel 0 [] s s').
  - assert (Hreq : query_requests (query_log project_id collection_id url 0 (full ++ [last]))
                   = map (fun i => request_at project_id collection_id url (100 * i))
                         (seq 0 (Datatypes.S (length full)))).
    { rewrite query_requests_log, length_app. simpl length.
      replace (length full + 1) with (Datatypes.S (length full)) by lia.
      apply map_ext. intros i. f_equal. unfold page_size. lia. }
    split; [|split; [exact Hreq|]].
    + rewrite length_query_log, length_app. simpl. lia.
    + rewrite Hreq. apply Forall_forall. intros q Hq.
      apply list_elem_of_In, in_map_iff in Hq as (i & <- & _). done.
Qed.

End Pagination.

Lemma find_documents_by_url_pages_witness :
  exists evs,
    find_documents_by_url Demo.scripted 2 Demo.client_ok (lit "p1") (lit "c1") Demo.url_a
                          [Demo.full_page; Demo.short_page]
    = (Val (replicate 100 (lit "d") ++ [lit "e"; lit "f"]), [], evs)
    /\ evs = query_log (lit "p1") (lit "c1") Demo.url_a 0 [Demo.full_page; Demo.short_page]
    /\ length evs = 2
    /\ query_requests evs
       = [request_at (lit "p1") (lit "c1") Demo.url_a 0;
          request_at (lit "p1") (lit "c1") Demo.url_a 100]
    /\ Forall (fun q => q_count q = 100) (query_requests evs).
Proof.
  apply (find_documents_by_url_pages Demo.scripted Demo.client_ok (lit "p1") (lit "c1")
           Demo.url_a [Demo.full_page] Demo.short_page 2 _ []).
  - repeat constructor.
  - vm_compute. lia.
  - simpl. eexists. split; [reflexivity|]. eexists. split; reflexivity.
  - simpl. lia.
Defined.

(** ** The loops of [main] *)

Section LogFacts.

Lemma delete_requests_app (ev1 ev2 : list event) :
  delete_requests (ev1 ++ ev2) = delete_requests ev1 ++ delete_requests ev2.
Proof. apply omap_app. Qed.

Lemma deleted_calls_app (ev1 ev2 : list event) :
  deleted_calls (ev1 ++ ev2) = deleted_calls ev1 ++ deleted_calls ev2.
Proof. apply omap_app. Qed.

Lemma failed_calls_app (ev1 ev2 : list event) :
  failed_calls (ev1 ++ ev2) = failed_calls ev1 ++ failed_calls ev2.
Proof. apply omap_app. Qed.

Lemma only_queries_no_failed (evs : list event) : only_queries evs -> failed_calls evs = [].
Proof. induction 1 as [|ev evs (r & o & ->) _ IH]; done. Qed.

Lemma accounted_refl (t : tally) (evs : list event) :
  deleted_calls evs = [] -> failed_calls evs = [] -> accounted t evs t.
Proof.
  intros Hd Hf. split.
  - rewrite Hd. simpl. lia.
  - exists []. rewrite Hf. by rewrite app_nil_r.
Qed.

Lemma accounted_trans (t1 t2 t3 : tally) (ev1 ev2 : list event) :
  accounted t1 ev1 t2 -> accounted t2 ev2 t3 -> accounted t1 (ev1 ++ ev2) t3.
Proof.
  intros (Hd1 & l1 & He1 & Hl1) (Hd2 & l2 & He2 & Hl2). split.
  - rewrite deleted_calls_app, length_app. lia.
  - exists (l1 ++ l2). split.
    + by rewrite He2, He1, app_assoc.
    + by rewrite failed_calls_app, !map_app, Hl1, Hl2.
Qed.

Lemma accounted_queries_l (t t' : tally) (ev1 ev2 : list event) :
  only_queries ev1 -> accounted t ev2 t' -> accounted t (ev1 ++ ev2) t'.
Proof.
  intros Hq H. apply (accounted_trans t t t'); [|done].
  apply accounted_refl; [by apply only_queries_no_delete|by apply only_queries_no_failed].
Qed.

Lemma cut_by_query_app {A} (r : res A) (ev1 ev2 : list event) :
  cut_by_query r ev2 -> cut_by_query r (ev1 ++ ev2).
Proof.
  destruct r as [a|e|c|]; try done.
  intros (q & evs0 & ->). exists q, (ev1 ++ evs0). by rewrite app_assoc.
Qed.

Lemma cut_by_query_stopped {A B} (r1 : res A) (r : res B) (evs : list event) :
  stopped_as r1 r -> cut_by_query r1 evs -> cut_by_query r evs.
Proof. destruct r1; destruct r; simpl; try done; intros H; by subst. Qed.

Lemma stopped_as_not_val {A B} (r1 : res A) (b : B) : ~ stopped_as r1 (Val b).
Proof. intros H. destruct r1; exact H. Qed.

(** What one delete attempt leaves in the accumulators. *)
Lemma tally_after_accounted (url collection_name : str) (request : delete_request)
    (t : tally) (o : outcome delete_response) (line : str) :
  accounted t [EvDelete request o; EvPrint line]
            (tally_after url collection_name (d_document_id request) t o)
  /\ total_not_found (tally_after url collection_name (d_document_id request) t o)
     = total_not_found t.
Proof.
  unfold accounted, deleted_calls, failed_calls, tally_after. simpl.
  destruct o as [r|e]; simpl.
  - destruct (bool_decide (resp_status r = Some (lit "deleted"))); simpl.
    + split; [split; [done|]|done]. exists []. by rewrite app_nil_r.
    + split; [split; [lia|]|done]. by eexists [_].
  - split; [split; [lia|]|done]. by eexists [_].
Qed.

End LogFacts.

(** Closes a goal about the value of a computation that is known to have
    stopped without one. *)
Ltac never_val H :=
  intros; subst; exfalso; exact (stopped_as_not_val _ _ H).

Section LoopFacts.

Context {S : Type} (svc : service S).
Variables (fuel : nat) (discovery : client) (project_id : str).

Lemma bind_assoc {A B C} (m : M S A) (f : A -> M S B) (g : B -> M S C) (s : S) :
  bind (bind m f) g s = bind m (fun a => bind (f a) g) s.
Proof.
  unfold bind. destruct (m s) as [[r s1] ev1]. destruct r as [a|e|c|]; try done.
  destruct (f a s1) as [[r2 s2] ev2]. destruct r2 as [b|e|c|]; try done.
  destruct (g b s2) as [[r3 s3] ev3]. by rewrite app_assoc.
Qed.

(** The second part of a [bind] whose first part returned. *)
Lemma bind_val_run {A B} (m : M S A) (k : A -> M S B) (s s1 s2 : S) (a : A)
    (r : res B) (ev1 evs : list event) :
  m s = (Val a, s1, ev1) -> bind m k s = (r, s2, evs) ->
  exists ev2, k a s1 = (r, s2, ev2) /\ evs = ev1 ++ ev2.
Proof.
  intros Hm. rewrite (bind_val _ _ _ _ _ _ Hm).
  destruct (k a s1) as [[r2 s2'] ev2]. intros [= <- <- <-]. by exists ev2.
Qed.

(** The delete loop always runs to its end: one call per document id, in
    order, whatever the calls do. *)
Lemma delete_loop_spec (url collection_id collection_name : str) (doc_ids : list str)
    (t : tally) (s : S) :
  exists t' s' evs,
    delete_loop svc discovery project_id url collection_id collection_name doc_ids t s
      = (Val t', s', evs)
    /\ delete_requests evs = map (DeleteRequest project_id collection_id) doc_ids
    /\ found_ids evs = []
    /\ accounted t evs t'
    /\ total_not_found t' = total_not_found t.
Proof.
  revert t s. induction doc_ids as [|d ds IH]; intros t s.
  - exists t, s, []. repeat split; try done. by apply accounted_refl.
  - cbn [delete_loop].
    pose proof (delete_step_run svc discovery project_id url collection_id collection_name
                                d t s) as Hstep.
    cbv zeta in Hstep.
    destruct (svc_delete_document svc discovery _ s) as [o s1].
    destruct (IH (tally_after url collection_name d t o) s1)
      as (t' & s' & evs & Hrun & Hreq & Hids & Hacc & Hnf).
    destruct (tally_after_accounted url collection_name
                (DeleteRequest project_id collection_id d) t o
                (line_after collection_name d o)) as [Hacc1 Hnf1].
    eexists t', s', _. split; [|split; [|split; [|split]]].
    + rewrite (bind_val _ _ _ _ _ _ Hstep), Hrun. reflexivity.
    + rewrite (delete_requests_app [_; _]), Hreq. done.
    + rewrite (found_ids_app [_; _]), Hids. done.
    + exact (accounted_trans _ _ _ _ _ Hacc1 Hacc).
    + by rewrite Hnf.
Qed.

(** The collection loop of one URL.  Whatever its end, only a raising
    [query] call can cut it short, and the documents it asks to delete are
    the ids it was given by the [query] calls, in order; [extra] are the ids
    of a search that did not come to its end.  When it returns, the
    accumulators account for its calls, the not-found counter is untouched
    and [found_any] tells whether any id was found. *)
Lemma collections_loop_spec (url : str) (todo : list (str * str)) (found_any : bool)
    (t : tally) (s s' : S) (r : res (bool * tally)) (evs : list event) :
  collections_loop svc fuel discovery project_id url todo found_any t s = (r, s', evs) ->
  cut_by_query r evs
  /\ (exists extra,
        found_ids evs = map d_document_id (delete_requests evs) ++ extra
        /\ (forall v, r = Val v -> extra = []))
  /\ (forall found_any' t',
        r = Val (found_any', t') ->
        accounted t evs t'
        /\ total_not_found t' = total_not_found t
        /\ found_any' = found_any || negb (is_nil (found_ids evs))).
Proof.
  revert found_any t s s' r evs.
  induction todo as [|[cid cname] rest IH]; intros fa t s s' r evs.
  - intros [= <- <- <-]. split; [done|split].
    + by exists [].
    + intros fa' t' [= <- <-]. split; [by apply accounted_refl|].
      split; [done|]. by rewrite orb_false_r.
  - cbn [collections_loop]. intros H.
    apply bind_inv in H
      as [(r1 & Hfind & Hstop) | (docs & s1 & ev1 & ev2 & Hfind & Hk & ->)].
    + apply find_loop_spec in Hfind as (Hq & Hcut & _).
      apply only_queries_no_delete in Hq as [Hq _].
      split; [by apply (cut_by_query_stopped r1)|split].
      * exists (found_ids evs). rewrite Hq. split; [done|].
        never_val Hstop.
      * never_val Hstop.
    + apply find_loop_spec in Hfind as (Hq & _ & Hids).
      specialize (Hids docs eq_refl). simpl in Hids.
      pose proof (only_queries_no_delete _ Hq) as [Hq1 _].
      destruct (is_nil docs) eqn:Hnil.
      * destruct docs; [|done].
        apply IH in Hk as (Hcut & (extra & Hex & Hval) & Hacc).
        split; [by apply cut_by_query_app|split].
        -- exists extra. by rewrite found_ids_app, delete_requests_app, Hq1, <- Hids.
        -- intros fa' t' Hr. destruct (Hacc fa' t' Hr) as (Ha & Hnf & Hfa).
           split; [by apply accounted_queries_l|]. split; [done|].
           by rewrite found_ids_app, <- Hids.
      * destruct (delete_loop_spec url cid cname docs t s1)
          as (t1 & s2 & ev3 & Hdel & Hreq & Hfid & Hacc1 & Hnf1).
        apply (bind_val_run _ _ _ _ _ _ _ _ _ Hdel) in Hk as (ev4 & Hrest & ->).
        apply IH in Hrest as (Hcut & (extra & Hex & Hval) & Hacc).
        split; [by do 2 apply cut_by_query_app|split].
        -- exists extra. split; [|done].
           rewrite !found_ids_app, !delete_requests_app, Hq1, Hreq, Hfid, <- Hids, Hex.
           simpl. rewrite map_app, map_map. simpl. by rewrite map_id, <- app_assoc.
        -- intros fa' t' Hr. destruct (Hacc fa' t' Hr) as (Ha & Hnf & Hfa).
           split; [|split].
           ++ apply accounted_queries_l; [done|]. by apply (accounted_trans t t1 t').
           ++ by rewrite Hnf.
           ++ rewrite Hfa, found_ids_app, <- Hids. destruct docs; [done|].
              simpl. by rewrite orb_true_r.
Qed.

Lemma accounted_print_l (t t' : tally) (line : str) (evs : list event) :
  accounted t evs t' -> accounted t (EvPrint line :: evs) t'.
Proof.
  intros H. apply (accounted_trans t t t' [EvPrint line] evs); [|done].
  by apply accounted_refl.
Qed.

Lemma accounted_print_r (t t' : tally) (line : str) (evs : list event) :
  accounted t evs t' -> accounted t (evs ++ [EvPrint line]) t'.
Proof.
  intros H. apply (accounted_trans t t' t' evs [EvPrint line]); [done|].
  by apply accounted_refl.
Qed.

(** The body of the URL loop.  When it returns, the not-found counter has
    moved by one exactly when no id was found. *)
Lemma process_url_spec (collections : list (str * str)) (url : str)
    (t : tally) (s s' : S) (r : res tally) (evs : list event) :
  process_url svc fuel discovery project_id collections url t s = (r, s', evs) ->
  cut_by_query r evs
  /\ (exists extra,
        found_ids evs = map d_document_id (delete_requests evs) ++ extra
        /\ (forall v, r = Val v -> extra = []))
  /\ (forall t',
        r = Val t' ->
        accounted t evs t'
        /\ total_not_found t'
           = total_not_found t + (if is_nil (found_ids evs) then 1 else 0)).
Proof.
  unfold process_url. intros H.
  apply (bind_val_run _ _ s s _ tt _ [EvPrint (lit "Processing: " ++ url)]) in H
    as (ev0 & H & ->); [|done].
  cbn [app].
  apply bind_inv in H
    as [(r1 & Hloop & Hstop) | ([fa' t1] & s1 & ev1 & ev2 & Hloop & Hk & ->)].
  - apply collections_loop_spec in Hloop as (Hcut & (extra & Hex & _) & _).
    split; [apply (cut_by_query_app _ [_]); by apply (cut_by_query_stopped r1)|split].
    + exists extra. split; [done|]. never_val Hstop.
    + never_val Hstop.
  - apply collections_loop_spec in Hloop as (Hcut & (extra & Hex & Hval) & Hacc).
    destruct (Hacc fa' t1 eq_refl) as (Ha & Hnf & Hfa).
    rewrite (Hval _ eq_refl), app_nil_r in Hex. simpl in Hk, Hfa.
    unfold close_url in Hk. destruct fa'.
    + injection Hk as <- <- <-. rewrite app_nil_r.
      split; [done|split].
      * exists []. by rewrite app_nil_r.
      * intros t' [= <-]. split; [by apply accounted_print_l|].
        change (found_ids (EvPrint ?l :: ev1)) with (found_ids ev1).
        destruct (is_nil (found_ids ev1)); [done|]. lia.
    + injection Hk as <- <- <-.
      split; [done|split].
      * exists []. split; [|done].
        change (found_ids (EvPrint ?l :: ?e)) with (found_ids e).
        change (delete_requests (EvPrint ?l :: ?e)) with (delete_requests e).
        rewrite found_ids_app, delete_requests_app. simpl. by rewrite !app_nil_r.
      * intros t' [= <-]. split.
        -- apply accounted_print_l, accounted_print_r.
           destruct Ha as (Hd & later & He & Hl). split; [done|]. by exists later.
        -- change (found_ids (EvPrint ?l :: ?e)) with (found_ids e).
           rewrite found_ids_app. simpl. rewrite app_nil_r.
           destruct (is_nil (found_ids ev1)); [|done]. simpl. lia.
Qed.

(** The URL loop. *)
Lemma urls_loop_spec (collections : list (str * str)) (urls : list str)
    (t : tally) (s s' : S) (r : res tally) (evs : list event) :
  urls_loop svc fuel discovery project_id collections urls t s = (r, s', evs) ->
  cut_by_query r evs
  /\ (exists extra,
        found_ids evs = map d_document_id (delete_requests evs) ++ extra
        /\ (forall v, r = Val v -> extra = []))
  /\ (forall t', r = Val t' -> accounted t evs t').
Proof.
  revert t s s' r evs. induction urls as [|url rest IH]; intros t s s' r evs.
  - intros [= <- <- <-]. split; [done|split].
    + by exists [].
    + intros t' [= <-]. by apply accounted_refl.
  - cbn [urls_loop]. intros H.
    apply bind_inv in H
      as [(r1 & Hurl & Hstop) | (t1 & s1 & ev1 & ev2 & Hurl & Hk & ->)].
    + apply process_url_spec in Hurl as (Hcut & (extra & Hex & _) & _).
      split; [by apply (cut_by_query_stopped r1)|split].
      * exists extra. split; [done|]. never_val Hstop.
      * never_val Hstop.
    + apply process_url_spec in Hurl as (_ & (extra1 & Hex1 & Hval1) & Hacc1).
      rewrite (Hval1 _ eq_refl), app_nil_r in Hex1.
      destruct (Hacc1 t1 eq_refl) as [Ha1 _].
      apply IH in Hk as (Hcut & (extra & Hex & Hval) & Hacc).
      split; [by apply cut_by_query_app|split].
      * exists extra. split; [|done].
        by rewrite found_ids_app, delete_requests_app, map_app, Hex1, Hex, app_assoc.
      * intros t' Hr. exact (accounted_trans _ _ _ _ _ Ha1 (Hacc t' Hr)).
Qed.

End LoopFacts.

(** ** Failures of [delete_document] and of [find_documents_by_url] *)

Section Isolation.

Context {S : Type} (svc : service S).
Variables (fuel : nat) (discovery : client) (project_id : str).
Variable collections : list (str * str).

Lemma bind_ext {A B} (m : M S A) (f g : A -> M S B) (s : S) :
  (forall a s1, f a s1 = g a s1) -> bind m f s = bind m g s.
Proof.
  intros H. unfold bind. destruct (m s) as [[r s1] ev1].
  destruct r as [a|e|c|]; try done. by rewrite H.
Qed.

(** The three ways into the rest of the run: the URL loop at a URL, the
    collection loop at a collection, the delete loop at a document. *)
Lemma urls_loop_resume (url : str) (rest_urls : list str) (t : tally) (s : S) :
  urls_loop svc fuel discovery project_id collections (url :: rest_urls) t s
  = bind (print (lit "Processing: " ++ url))
         (fun _ => resume_collections svc fuel discovery project_id collections
                                      url collections false rest_urls t) s.
Proof.
  cbn [urls_loop]. unfold process_url, resume_collections.
  rewrite bind_assoc. apply bind_ext. intros _ s1. by rewrite bind_assoc.
Qed.

Lemma resume_collections_cons (url collection_id collection_name : str)
    (todo : list (str * str)) (found_any : bool) (rest_urls : list str) (t : tally) (s : S) :
  resume_collections svc fuel discovery project_id collections url
                     ((collection_id, collection_name) :: todo) found_any rest_urls t s
  = bind (find_documents_by_url svc fuel discovery project_id collection_id url)
         (fun doc_ids =>
            if is_nil doc_ids
            then resume_collections svc fuel discovery project_id collections url
                                    todo found_any rest_urls t
            else resume_docs svc fuel discovery project_id collections url
                             collection_id collection_name doc_ids todo rest_urls t) s.
Proof.
  unfold resume_collections at 1. cbn [collections_loop].
  rewrite bind_assoc. apply bind_ext. intros docs s1.
  destruct (is_nil docs); [done|].
  unfold resume_docs, resume_collections. by rewrite bind_assoc.
Qed.







End Isolation.



(** ** URLs found nowhere *)

Section NotFound.

Context {S : Type} (svc : service S).
Variables (fuel : nat) (discovery : client) (project_id : str).





End NotFound.


(** ** Deletes that return another status *)

Section UnexpectedStatus.

Context {S : Type} (svc : service S).
Variables (discovery : client) (project_id : str).

(** C7, as the script has it: a [delete_document] call that returns a
    status other than "deleted" is recorded as exactly one error with the
    URL, the document id, the collection name and the fixed message
    "unexpected status", and the deleted counter stays as it is.  A call
    that raises is recorded with the text of its exception instead, so the
    two records differ exactly when that text is not "unexpected status". *)
Theorem unexpected_status_recorded (url collection_id collection_name doc_id : str)
    (t : tally) (s s1 : S) (r : delete_response) :
  svc_delete_document svc discovery (DeleteRequest project_id collection_id doc_id) s
    = (Returned r, s1) ->
  resp_status r <> Some (lit "deleted") ->
  let record := (url, doc_id, collection_name, lit "unexpected status") in
  delete_step svc discovery project_id url collection_id collection_name doc_id t s
    = (Val (append_error t record), s1,
       [EvDelete (DeleteRequest project_id collection_id doc_id) (Returned r);
        EvPrint (lit "  WARNING: Unexpected status deleting doc " ++ doc_id
                 ++ lit " from '" ++ collection_name ++ lit "'")])
  /\ errors (append_error t record) = errors t ++ [record]
  /\ total_deleted (append_error t record) = total_deleted t
  /\ (forall s0 s2 e,
        svc_delete_document svc discovery (DeleteRequest project_id collection_id doc_id) s0
          = (Raised e, s2) ->
        fst (fst (delete_step svc discovery project_id url collection_id collection_name
                              doc_id t s0))
          = Val (append_error t (url, doc_id, collection_name, exn_str e))
        /\ ((url, doc_id, collection_name, exn_str e) = record
            <-> exn_str e = lit "unexpected status")).
Proof.
  intros Hcall Hstatus record. split; [|split; [done|split; [done|]]].
  - rewrite delete_step_run. cbv zeta. rewrite Hcall. unfold tally_after, line_after.
    by rewrite bool_decide_eq_false_2.
  - intros s0 s2 e Hraise. split.
    + rewrite delete_step_run. cbv zeta. by rewrite Hraise.
    + unfold record. split; [by intros [= ->]|by intros ->].
Qed.

End UnexpectedStatus.

Lemma unexpected_status_recorded_witness :
  svc_delete_document Demo.odd_status Demo.client_ok
                      (DeleteRequest (lit "p1") (lit "c1") (lit "d1")) tt
    = (Returned (DeleteResponse (Some (lit "failed"))), tt)
  /\ delete_step Demo.odd_status Demo.client_ok (lit "p1") Demo.url_a (lit "c1") (lit "A")
                 (lit "d1") Demo.start tt
     = (Val (Tally 0 0 [(Demo.url_a, lit "d1", lit "A", lit "unexpected status")]), tt,
        [EvDelete (DeleteRequest (lit "p1") (lit "c1") (lit "d1"))
                  (Returned (DeleteResponse (Some (lit "failed"))));
         EvPrint (lit "  WARNING: Unexpected status deleting doc " ++ lit "d1"
                  ++ lit " from '" ++ lit "A" ++ lit "'")]).
Proof.
  split; [reflexivity|].
  refine (proj1 (unexpected_status_recorded Demo.odd_status Demo.client_ok (lit "p1")
                   Demo.url_a (lit "c1") (lit "A") (lit "d1") Demo.start tt tt
                   (DeleteResponse (Some (lit "failed"))) eq_refl _)).
  by vm_compute.
Defined.

(** C7, as the claim has it, fails: an exception whose text is
    "unexpected status" leaves the very record that a call returning the
    status "failed" leaves. *)
Lemma unexpected_status_message_not_distinct :
  svc_delete_document Demo.raising_text Demo.client_ok
                      (DeleteRequest (lit "p1") (lit "c1") (lit "d1")) tt
    = (Raised (ServiceError (lit "unexpected status")), tt)
  /\ svc_delete_document Demo.odd_status Demo.client_ok
                         (DeleteRequest (lit "p1") (lit "c1") (lit "d1")) tt
     = (Returned (DeleteResponse (Some (lit "failed"))), tt)
  /\ fst (fst (delete_step Demo.raising_text Demo.client_ok (lit "p1") Demo.url_a
                           (lit "c1") (lit "A") (lit "d1") Demo.start tt))
     = Val (Tally 0 0 [(Demo.url_a, lit "d1", lit "A", lit "unexpected status")])
  /\ fst (fst (delete_step Demo.odd_status Demo.client_ok (lit "p1") Demo.url_a
                           (lit "c1") (lit "A") (lit "d1") Demo.start tt))
     = Val (Tally 0 0 [(Demo.url_a, lit "d1", lit "A", lit "unexpected status")]).
Proof. repeat split. Qed.

(** ** Results without a document id *)

Section WithoutId.

Context {S : Type} (svc : service S).
Variables (fuel : nat) (discovery : client) (project_id : str).

(** Where a found id comes from. *)
Lemma found_ids_elem (evs : list event) (d : str) :
  d ∈ found_ids evs ->
  exists q resp obj,
    EvQuery q (Returned resp) ∈ evs /\ obj ∈ results_of resp
    /\ doc_document_id obj = Some d.
Proof.
  induction evs as [|ev evs IH]; [by intros ?%elem_of_nil|].
  change (ev :: evs) with ([ev] ++ evs) at 1. rewrite found_ids_app.
  intros [Hd|Hd]%elem_of_app.
  - destruct ev as [| | |q [resp|e]|]; try by apply elem_of_nil in Hd.
    unfold found_ids in Hd. simpl in Hd. rewrite app_nil_r in Hd.
    apply list_elem_of_omap in Hd as (obj & Hobj & Hid).
    exists q, resp, obj. split; [by left|]. split; [done|].
    unfold id_of in Hid. destruct (doc_document_id obj) as [d'|]; [|done].
    destruct (truthy d'); [|done]. by injection Hid as ->.
  - destruct (IH Hd) as (q & resp & obj & Hin & Hobj & Hid).
    exists q, resp, obj. split; [by right|done].
Qed.

Lemma failed_calls_sub (evs : list event) (req : delete_request) :
  req ∈ failed_calls evs -> req ∈ delete_requests evs.
Proof.
  unfold failed_calls, delete_requests. rewrite !list_elem_of_omap.
  intros (ev & Hev & Hreq). exists ev. split; [done|].
  destruct ev as [| | | |r o]; try done. by destruct (returned_deleted o).
Qed.

(** C10: a result object without a document id is skipped when the ids
    of its page are collected, but it is one of the results whose number
    decides whether another page is requested.  In every run of the URL
    loop, whatever its end, each document id passed to [delete_document]
    is the id of a result object returned by a [query] call of that run,
    and so is the document id of each error record the run adds: an
    object without an id is behind none of them. *)
Theorem results_without_id_are_skipped (collections : list (str * str)) (urls : list str)
    (t : tally) (s s' : S) (r : res tally) (evs : list event) :
  urls_loop svc fuel discovery project_id collections urls t s = (r, s', evs) ->
  (forall acc before after obj,
     doc_document_id obj = None ->
     collect_ids acc (before ++ obj :: after) = collect_ids acc (before ++ after))
  /\ (forall fuel' collection_id url s0 resp s1,
        svc_query svc discovery (request_at project_id collection_id url 0) s0
          = (Returned resp, s1) ->
        (results_of resp <> [] -> length (results_of resp) < page_size ->
         find_documents_by_url svc (Datatypes.S fuel') discovery project_id collection_id url s0
         = (Val (page_ids (results_of resp)), s1,
            [EvQuery (request_at project_id collection_id url 0) (Returned resp)]))
        /\ (page_size <= length (results_of resp) ->
            find_documents_by_url svc (Datatypes.S fuel') discovery project_id
                                  collection_id url s0
            = (let '(r2, s2, ev2) :=
                 find_loop svc fuel' discovery project_id collection_id url page_size
                           (page_ids (results_of resp)) s1 in
               (r2, s2,
                EvQuery (request_at project_id collection_id url 0) (Returned resp) :: ev2))))
  /\ (forall req,
        req ∈ delete_requests evs ->
        exists q resp obj,
          EvQuery q (Returned resp) ∈ evs /\ obj ∈ results_of resp
          /\ doc_document_id obj = Some (d_document_id req))
  /\ (forall t',
        r = Val t' ->
        exists later,
          errors t' = errors t ++ later
          /\ forall record,
               record ∈ later ->
               exists q resp obj,
                 EvQuery q (Returned resp) ∈ evs /\ obj ∈ results_of resp
                 /\ doc_document_id obj = Some (error_doc record)).
Proof.
  intros Hrun.
  apply urls_loop_spec in Hrun as (_ & (extra & Hprov & _) & Hacc).
  assert (Hreq : forall req, req ∈ delete_requests evs -> d_document_id req ∈ found_ids evs).
  { intros req Hin. rewrite Hprov. apply elem_of_app. left.
    apply list_elem_of_fmap. by exists req. }
  split; [|split; [|split]].
  - intros acc before after obj Hnone. rewrite !collect_ids_app. f_equal.
    unfold page_ids. rewrite !omap_app. f_equal. simpl. unfold id_of at 1. by rewrite Hnone.
  - intros fuel' cid url s0 resp s1 Hq. unfold find_documents_by_url.
    rewrite find_loop_step. cbv zeta. rewrite Hq. split.
    + intros Hne Hlt. destruct (results_of resp) as [|obj objs] eqn:R; [done|].
      cbn [is_nil]. apply Nat.ltb_lt in Hlt. by rewrite Hlt.
    + intros Hge. destruct (results_of resp) as [|obj objs] eqn:R.
      { unfold page_size in Hge. simpl in Hge. lia. }
      cbn [is_nil]. apply Nat.ltb_ge in Hge. by rewrite Hge.
  - intros req Hin. by apply found_ids_elem, Hreq.
  - intros t' Hr. destruct (Hacc t' Hr) as (_ & later & Herr & Hdocs).
    exists later. split; [done|]. intros record Hin.
    assert (Hdoc : error_doc record ∈ map d_document_id (failed_calls evs)).
    { rewrite <- Hdocs. apply list_elem_of_fmap. by exists record. }
    apply list_elem_of_fmap in Hdoc as (req & -> & Hfailed).
    by apply found_ids_elem, Hreq, failed_calls_sub.
Qed.

End WithoutId.

Lemma results_without_id_are_skipped_witness :
  urls_loop Demo.gappy 1 Demo.client_ok (lit "p1") [(lit "c1", lit "A")] [Demo.url_a]
            Demo.start tt
    = (Val (Tally 2 0 []), tt,
       [EvPrint (lit "Processing: " ++ Demo.url_a);
        EvQuery (request_at (lit "p1") (lit "c1") Demo.url_a 0) Demo.gap_page;
        EvDelete (DeleteRequest (lit "p1") (lit "c1") (lit "d1")) Demo.deleted_ok;
        EvPrint (lit "  Deleted doc " ++ lit "d1" ++ lit " from '" ++ lit "A" ++ lit "'");
        EvDelete (DeleteRequest (lit "p1") (lit "c1") (lit "d3")) Demo.deleted_ok;
        EvPrint (lit "  Deleted doc " ++ lit "d3" ++ lit " from '" ++ lit "A" ++ lit "'")])
  /\ collect_ids [] ([Demo.doc (lit "d1")] ++ ResultObj None :: [Demo.doc (lit "d3")])
     = collect_ids [] ([Demo.doc (lit "d1")] ++ [Demo.doc (lit "d3")]).
Proof.
  split; [reflexivity|].
  refine (proj1 (results_without_id_are_skipped Demo.gappy 1 Demo.client_ok (lit "p1")
                   [(lit "c1", lit "A")] [Demo.url_a] Demo.start tt tt _ _ eq_refl)
                [] [Demo.doc (lit "d1")] [Demo.doc (lit "d3")] (ResultObj None) eq_refl).
Defined.

(** ** The run of [main] *)

Section MainFacts.

Context {S : Type} (svc : service S).
Variable fuel : nat.

Lemma load_config_complete (inp : inputs) (s : S) :
  complete inp = true -> load_config inp s = (Val (config_of inp), s, []).
Proof.
  unfold complete, load_config, required. cbn [forallb List.filter].
  destruct (unset inp (lit "DISCOVERY_API_KEY")); [done|].
  destruct (unset inp (lit "DISCOVERY_URL")); [done|].
  by destruct (unset inp (lit "DISCOVERY_PROJECT_ID")).
Qed.

Lemma load_config_missing (inp : inputs) (s : S) :
  complete inp = false ->
  exists line, load_config inp s = (Exit 1, s, [EvPrint line]).
Proof.
  unfold complete, load_config, required. cbn [forallb List.filter].
  destruct (unset inp (lit "DISCOVERY_API_KEY"));
    destruct (unset inp (lit "DISCOVERY_URL"));
    destruct (unset inp (lit "DISCOVERY_PROJECT_ID")); try done;
    intros _; by eexists.
Qed.


Lemma print_all_val (lines : list str) (s : S) :
  print_all lines s = (Val tt, s, map EvPrint lines).
Proof.
  induction lines as [|l ls IH]; [done|].
  cbn [print_all]. unfold bind, print. by rewrite IH.
Qed.


(** [main] up to the listing of the collections, for a complete
    configuration and a list with at least one URL. *)
Lemma main_to_collections (inp : inputs) (content : str) (s : S) :
  complete inp = true ->
  files inp !! url_file inp = Some content ->
  load_urls_text content <> [] ->
  main svc fuel inp s
  = (let urls := load_urls_text content in
     let discovery := client_of inp in
     let project_id := cfg_project_id (config_of inp) in
     let head :=
       [EvPrint (lit "Loaded " ++ of_nat (length urls) ++ lit " URL(s) to delete.");
        EvClient discovery] in
     let '(r1, s1, ev1) := get_collections svc discovery project_id s in
     match r1 with
     | Val collections =>
         if is_nil collections then
           (Exit 1, s1,
            head ++ ev1 ++ [EvPrint (lit "ERROR: No collections found in the project.")])
         else
           let listing :=
             EvPrint (lit "Found " ++ of_nat (length collections) ++ lit " collection(s):")
             :: map EvPrint (map collection_line collections) ++ [EvPrint []] in
           let '(r2, s2, ev2) :=
             urls_loop svc fuel discovery project_id collections urls (Tally 0 0 []) s1 in
           match r2 with
           | Val t =>
               let '(r3, s3, ev3) := summary urls t s2 in
               (r3, s3, head ++ ev1 ++ listing ++ ev2 ++ ev3)
           | Raise e => (Raise e, s2, head ++ ev1 ++ listing ++ ev2)
           | Exit code => (Exit code, s2, head ++ ev1 ++ listing ++ ev2)
           | Fuel => (Fuel, s2, head ++ ev1 ++ listing ++ ev2)
           end
     | Raise e => (Raise e, s1, head ++ ev1)
     | Exit code => (Exit code, s1, head ++ ev1)
     | Fuel => (Fuel, s1, head ++ ev1)
     end).
Proof.
  intros Hcfg Hfile Hurls. unfold main.
  rewrite (bind_val _ _ _ _ _ _ (load_config_complete inp s Hcfg)).
  assert (Hload : load_urls (S:=S) inp (url_file inp) s = (Val (load_urls_text content), s, [])).
  { unfold load_urls. by rewrite Hfile. }
  rewrite (bind_val _ _ _ _ _ _ Hload).
  destruct (load_urls_text content) as [|u us] eqn:U; [done|]. cbn [is_nil]. cbv zeta.
  unfold bind at 1. unfold print at 1.
  unfold bind at 1. unfold create_client at 1.
  change (Client (cfg_version (config_of inp)) (cfg_api_key (config_of inp))
                 (cfg_url (config_of inp))) with (client_of inp).
  unfold bind at 1.
  destruct (get_collections svc (client_of inp) (cfg_project_id (config_of inp)) s)
    as [[r1 s1] ev1].
  destruct r1 as [colls|e|c|]; try done.
  destruct (is_nil colls).
  - unfold bind, print, sys_exit. cbn [app]. reflexivity.
  - unfold bind at 1. unfold print at 1.
    unfold bind at 1. rewrite print_all_val.
    unfold bind at 1. unfold print at 1.
    unfold bind at 1.
    destruct (urls_loop svc fuel (client_of inp) (cfg_project_id (config_of inp)) colls
                        (u :: us) (Tally 0 0 []) s1) as [[r2 s2] ev2].
    destruct r2 as [t|e|c|]; simpl.
    + destruct (summary (u :: us) t s2) as [[r3 s3] ev3].
      simpl. by rewrite <- !app_assoc.
    + by rewrite <- !app_assoc.
    + by rewrite <- !app_assoc.
    + by rewrite <- !app_assoc.
Qed.

End MainFacts.

Section ExitStatus.

Context {S : Type} (svc : service S).
Variable fuel : nat.

(** An empty URL list ends [main] before anything else is done. *)
Lemma nothing_to_do_run (inp : inputs) (content : str) (s : S) :
  complete inp = true ->
  files inp !! url_file inp = Some content ->
  load_urls_text content = [] ->
  main svc fuel inp s
    = (Exit 0, s, [EvPrint (lit "No URLs found in input file. Nothing to do.")])
  /\ status_of_run (main svc fuel inp s) = Some 0.
Proof.
  intros Hcfg Hfile Hurls.
  assert (Hmain : main svc fuel inp s
                  = (Exit 0, s, [EvPrint (lit "No URLs found in input file. Nothing to do.")])).
  { unfold main.
    rewrite (bind_val _ _ _ _ _ _ (load_config_complete inp s Hcfg)).
    assert (Hload : load_urls (S:=S) inp (url_file inp) s = (Val [], s, [])).
    { unfold load_urls. by rewrite Hfile, Hurls. }
    by rewrite (bind_val _ _ _ _ _ _ Hload). }
  split; [exact Hmain|]. by rewrite Hmain.
Qed.

(** C8: with a complete configuration and a URL file that yields no URL,
    [main] prints the "nothing to do" line and calls [sys.exit(0)]; that
    line is the whole log, so no client was created and no
    list-collections, query or delete call was made, and the service is
    in the state it started in. *)
Theorem nothing_to_do (inp : inputs) (content : str) (s : S) :
  complete inp = true ->
  files inp !! url_file inp = Some content ->
  load_urls_text content = [] ->
  main svc fuel inp s
    = (Exit 0, s, [EvPrint (lit "No URLs found in input file. Nothing to do.")])
  /\ status_of_run (main svc fuel inp s) = Some 0
  /\ query_requests (snd (main svc fuel inp s)) = []
  /\ delete_requests (snd (main svc fuel inp s)) = []
  /\ (forall ev, ev ∈ snd (main svc fuel inp s) -> exists line, ev = EvPrint line).
Proof.
  intros Hcfg Hfile Hurls.
  destruct (nothing_to_do_run inp content s Hcfg Hfile Hurls) as [Hmain Hstatus].
  split; [exact Hmain|]. split; [exact Hstatus|]. rewrite Hmain. cbn [snd].
  split; [done|]. split; [done|].
  intros ev Hev. apply list_elem_of_singleton in Hev. by eexists.
Qed.


End ExitStatus.

Lemma nothing_to_do_witness :
  complete Demo.inputs_empty_list = true
  /\ files Demo.inputs_empty_list !! url_file Demo.inputs_empty_list
     = Some (lit "# nothing here" ++ [10%N])
  /\ main Demo.sticky 1 Demo.inputs_empty_list tt
     = (Exit 0, tt, [EvPrint (lit "No URLs found in input file. Nothing to do.")]).
Proof.
  assert (Hcfg : complete Demo.inputs_empty_list = true) by by vm_compute.
  assert (Hfile : files Demo.inputs_empty_list !! url_file Demo.inputs_empty_list
                  = Some (lit "# nothing here" ++ [10%N])) by by vm_compute.
  split; [exact Hcfg|]. split; [exact Hfile|].
  refine (proj1 (nothing_to_do Demo.sticky 1 Demo.inputs_empty_list _ tt Hcfg Hfile _)).
  by vm_compute.
Defined.


Section SummaryFacts.

Context {S : Type} (svc : service S).

Lemma deleted_calls_prints (lines : list str) : deleted_calls (map EvPrint lines) = [].
Proof. by induction lines. Qed.

Lemma collection_pairs_silent (cs : list collection_obj) (s : S) :
  exists r, collection_pairs cs s = (r, s, []).
Proof.
  induction cs as [|c cs [r IH]]; [by eexists|].
  cbn [collection_pairs]. destruct (coll_collection_id c) as [cid|]; [|by eexists].
  unfold bind. rewrite IH. destruct r; by eexists.
Qed.

(** Listing the collections deletes nothing. *)
Lemma get_collections_silent (discovery : client) (project_id : str) (s s1 : S)
    (r : res (list (str * str))) (ev1 : list event) :
  get_collections svc discovery project_id s = (r, s1, ev1) -> deleted_calls ev1 = [].
Proof.
  unfold get_collections, bind, api_call.
  destruct (svc_list_collections svc discovery project_id s) as [[resp|e] s0].
  - destruct (collection_pairs_silent (default [] (resp_collections resp)) s0) as [r' ->].
    destruct r'; by intros [= <- <- <-].
  - by intros [= <- <- <-].
Qed.

(** The summary only prints, and one of its lines is the deleted counter. *)
Lemma summary_events (urls : list str) (t : tally) (s : S) :
  exists ev3,
    summary urls t s = (Val tt, s, ev3)
    /\ deleted_calls ev3 = []
    /\ EvPrint (lit "Documents deleted: " ++ of_nat (total_deleted t)) ∈ ev3.
Proof.
  unfold summary, bind, print. destruct (is_nil (errors t)).
  - eexists. split; [reflexivity|]. split; [done|].
    cbn [app]. apply list_elem_of_further, list_elem_of_further, list_elem_of_here.
  - rewrite print_all_val. eexists. split; [reflexivity|]. split.
    + cbn [app].
      change (deleted_calls (EvPrint ?a :: EvPrint ?b :: EvPrint ?c :: EvPrint ?d
                             :: EvPrint ?e :: ?l)) with (deleted_calls l).
      apply deleted_calls_prints.
    + cbn [app]. apply list_elem_of_further, list_elem_of_further, list_elem_of_here.
Qed.

End SummaryFacts.

(** ** The deleted counter *)

Section DeletedCounter.

Context {S : Type} (svc : service S).
Variables (fuel : nat) (discovery : client) (project_id : str).

(** C9, as the script has it: at every level of the run (one delete
    attempt, the delete loop of a collection, the collection loop of a
    URL, one iteration of the URL loop, the URL loop) the deleted counter
    grows by the number of [delete_document] calls made meanwhile that
    returned the status "deleted": each such call is counted exactly
    once, and nothing else is counted.  The number the summary of a
    completed run prints as deleted is the number of such calls of the
    whole run. *)
Theorem deleted_counter_counts_calls :
  (forall url collection_id collection_name doc_id t s t' s' evs,
     delete_step svc discovery project_id url collection_id collection_name doc_id t s
       = (Val t', s', evs) ->
     total_deleted t' = total_deleted t + length (deleted_calls evs))
  /\ (forall url collection_id collection_name doc_ids t s t' s' evs,
        delete_loop svc discovery project_id url collection_id collection_name doc_ids t s
          = (Val t', s', evs) ->
        total_deleted t' = total_deleted t + length (deleted_calls evs))
  /\ (forall url todo found_any t s found_any' t' s' evs,
        collections_loop svc fuel discovery project_id url todo found_any t s
          = (Val (found_any', t'), s', evs) ->
        total_deleted t' = total_deleted t + length (deleted_calls evs))
  /\ (forall collections url t s t' s' evs,
        process_url svc fuel discovery project_id collections url t s = (Val t', s', evs) ->
        total_deleted t' = total_deleted t + length (deleted_calls evs))
  /\ (forall collections urls t s t' s' evs,
        urls_loop svc fuel discovery project_id collections urls t s = (Val t', s', evs) ->
        total_deleted t' = total_deleted t + length (deleted_calls evs))
  /\ (forall inp content s s' evs,
        complete inp = true ->
        files inp !! url_file inp = Some content ->
        load_urls_text content <> [] ->
        main svc fuel inp s = (Val tt, s', evs) ->
        EvPrint (lit "Documents deleted: " ++ of_nat (length (deleted_calls evs))) ∈ evs).
Proof.
  split; [|split; [|split; [|split; [|split]]]].
  - intros url cid cname d t s t' s' evs. rewrite delete_step_run. cbv zeta.
    destruct (svc_delete_document svc discovery _ s) as [o s1]. intros [= <- <- <-].
    by destruct (tally_after_accounted url cname (DeleteRequest project_id cid d) t o
                   (line_after cname d o)) as [[Hd _] _].
  - intros url cid cname docs t s t' s' evs Hrun.
    destruct (delete_loop_spec svc discovery project_id url cid cname docs t s)
      as (t1 & s1 & ev1 & Hdel & _ & _ & [Hd _] & _).
    rewrite Hdel in Hrun. by injection Hrun as <- <- <-.
  - intros url todo fa t s fa' t' s' evs Hrun.
    apply collections_loop_spec in Hrun as (_ & _ & Hacc).
    by destruct (Hacc fa' t' eq_refl) as ([Hd _] & _).
  - intros collections url t s t' s' evs Hrun.
    apply process_url_spec in Hrun as (_ & _ & Hacc).
    by destruct (Hacc t' eq_refl) as ([Hd _] & _).
  - intros collections urls t s t' s' evs Hrun.
    apply urls_loop_spec in Hrun as (_ & _ & Hacc).
    by destruct (Hacc t' eq_refl) as [Hd _].
  - intros inp content s s' evs Hcfg Hfile Hurls.
    rewrite (main_to_collections svc fuel inp content s Hcfg Hfile Hurls). cbv zeta.
    destruct (get_collections svc (client_of inp) (cfg_project_id (config_of inp)) s)
      as [[r1 s1] ev1] eqn:Hget.
    destruct r1 as [colls|e|c|]; try done.
    destruct (is_nil colls); [done|].
    destruct (urls_loop svc fuel (client_of inp) (cfg_project_id (config_of inp)) colls
                        (load_urls_text content) (Tally 0 0 []) s1)
      as [[r2 s2] ev2] eqn:Hloop.
    destruct r2 as [t|e|c|]; try done.
    destruct (summary_events (load_urls_text content) t s2) as (ev3 & -> & Hd3 & Hin).
    set (head := [EvPrint _; EvClient _]).
    set (listing := EvPrint _ :: map EvPrint _ ++ [EvPrint []]).
    intros Hmain. apply (f_equal snd) in Hmain. cbn [snd] in Hmain. subst evs.
    apply get_collections_silent in Hget.
    apply urls_loop_spec in Hloop as (_ & _ & Hacc).
    destruct (Hacc t eq_refl) as [Hd _]. cbn [total_deleted Nat.add] in Hd.
    assert (Hlisting : deleted_calls listing = []).
    { unfold listing.
      change (deleted_calls (EvPrint ?l :: ?evs)) with (deleted_calls evs).
      by rewrite deleted_calls_app, deleted_calls_prints. }
    rewrite !deleted_calls_app, Hget, Hlisting, Hd3, app_nil_r.
    change (deleted_calls head) with (@nil delete_request). cbn [app]. rewrite <- Hd.
    apply elem_of_app. right. apply elem_of_app. right.
    apply elem_of_app. right. apply elem_of_app. by right.
Qed.

End DeletedCounter.

Lemma deleted_counter_counts_calls_witness :
  urls_loop Demo.sticky 1 Demo.client_ok (lit "p1") [(lit "c1", lit "A")] [Demo.url_a]
            Demo.start tt
    = (Val (Tally 1 0 []), tt,
       [EvPrint (lit "Processing: " ++ Demo.url_a);
        EvQuery (request_at (lit "p1") (lit "c1") Demo.url_a 0) Demo.one_match;
        EvDelete (DeleteRequest (lit "p1") (lit "c1") (lit "d1")) Demo.deleted_ok;
        EvPrint (lit "  Deleted doc " ++ lit "d1" ++ lit " from '" ++ lit "A" ++ lit "'")])
  /\ total_deleted (Tally 1 0 []) = total_deleted Demo.start + 1.
Proof.
  split; [reflexivity|].
  exact (proj1 (proj2 (proj2 (proj2 (proj2
           (deleted_counter_counts_calls Demo.sticky 1 Demo.client_ok (lit "p1"))))))
           [(lit "c1", lit "A")] [Demo.url_a] Demo.start tt (Tally 1 0 []) tt _ eq_refl).
Defined.

(** C9, as the claim has it, fails: the script counts calls, not
    documents.  With the same URL twice in the list and a service that
    keeps returning document [d1] of collection [c1] and reports every
    delete as done, the one document is counted twice; run from [main]
    on a URL file with that duplicate and a project of two collections,
    the two documents there are make a summary of four deletions. *)
Lemma document_counted_twice :
  fst (fst (urls_loop Demo.sticky 1 Demo.client_ok (lit "p1") [(lit "c1", lit "A")]
                      [Demo.url_a; Demo.url_a] Demo.start tt))
    = Val (Tally 2 0 [])
  /\ deleted_calls (snd (urls_loop Demo.sticky 1 Demo.client_ok (lit "p1")
                                   [(lit "c1", lit "A")] [Demo.url_a; Demo.url_a]
                                   Demo.start tt))
     = [DeleteRequest (lit "p1") (lit "c1") (lit "d1");
        DeleteRequest (lit "p1") (lit "c1") (lit "d1")]
  /\ load_urls_text Demo.list_text = [Demo.url_a; Demo.url_a]
  /\ EvPrint (lit "Documents deleted: 4") ∈ snd (main Demo.sticky 1 Demo.inputs_ok tt).
Proof.
  split; [reflexivity|]. split; [reflexivity|]. split; [reflexivity|].
  apply list_elem_of_In. vm_compute. tauto.
Qed.

(** ** The scenarios of the specification, run *)

Example splitlines_sample :
  splitlines (lit "ab c" ++ [10; 10]%N ++ lit "de fg" ++ [13]%N ++ lit "kl" ++ [13; 10]%N)
  = [lit "ab c"; []; lit "de fg"; lit "kl"].
Proof. reflexivity. Qed.

Example load_urls_scenario :
  load_urls_text (lit "https://a.example/x" ++ [10%N] ++ lit "# comment" ++ [10; 10]%N
                  ++ lit "https://a.example/x")
  = [lit "https://a.example/x"; lit "https://a.example/x"].
Proof. reflexivity. Qed.

(** Two collections, a URL matching one document in the first and none
    in the second. *)
Example one_deletion_scenario :
  process_url Demo.scripted 1 Demo.client_ok (lit "p1") Demo.collections_ab Demo.url_a
              Demo.start [QueryResponse (Some [Demo.doc (lit "d1")])]
  = (Val (Tally 1 0 []), [],
     [EvPrint (lit "Processing: " ++ Demo.url_a);
      EvQuery (request_at (lit "p1") (lit "c1") Demo.url_a 0)
              (Returned (QueryResponse (Some [Demo.doc (lit "d1")])));
      EvDelete (DeleteRequest (lit "p1") (lit "c1") (lit "d1")) Demo.deleted_ok;
      EvPrint (lit "  Deleted doc d1 from 'A'");
      EvQuery (request_at (lit "p1") (lit "c2") Demo.url_a 0)
              (Returned (QueryResponse None))]).
Proof. reflexivity. Qed.

(** A whole run in which every delete fails: the summary lists the
    errors and the program still ends normally. *)
Example failing_run_summary :
  fst (fst (main Demo.failing 1 Demo.inputs_ok tt)) = Val tt
  /\ EvPrint (lit "Documents deleted: 0") ∈ snd (main Demo.failing 1 Demo.inputs_ok tt)
  /\ EvPrint (lit "Errors:          4") ∈ snd (main Demo.failing 1 Demo.inputs_ok tt).
Proof.
  split; [by vm_compute|].
  split; apply list_elem_of_In; vm_compute; tauto.
Qed.

(** * Further properties of the script *)

(** ** Loading the URL list *)

Section LoaderMore.

Lemma splitlines_from_line (cur l rest : str) :
  Forall (fun c => is_linebreak c = false) l ->
  splitlines_from cur (l ++ 10%N :: rest) = (rev cur ++ l) :: splitlines_from [] rest.
Proof.
  revert cur. induction l as [|c l IH]; intros cur Hl.
  - cbn [app splitlines_from]. rewrite app_nil_r.
    change (is_linebreak 10) with true. cbv iota.
    destruct rest as [|n rest']; [done|]. by change (N.eqb 10 13) with false.
  - apply Forall_cons in Hl as [Hc Hl]. cbn [app splitlines_from]. rewrite Hc.
    rewrite (IH _ Hl). cbn [rev]. by rewrite <- app_assoc.
Qed.

Lemma splitlines_lines_text (urls : list str) :
  Forall (Forall (fun c => is_linebreak c = false)) urls ->
  splitlines (lines_text urls) = urls.
Proof.
  unfold splitlines, lines_text. induction 1 as [|u us Hu _ IH]; [done|].
  cbn [map concat]. rewrite <- app_assoc. cbn [app].
  by rewrite (splitlines_from_line [] u _ Hu), IH.
Qed.

(** X1: a list written one entry per line is read back as it was,
    provided no entry is empty, starts with [#], has whitespace at either
    end or holds a line boundary. *)
Theorem load_urls_round_trip (urls : list str) :
  Forall clean urls -> load_urls_text (lines_text urls) = urls.
Proof.
  intros Hclean. unfold load_urls_text. rewrite load_urls_fold. cbn [app].
  rewrite splitlines_lines_text.
  - induction Hclean as [|u us (Hk & Hs & _) _ IH]; [done|].
    cbn [map List.filter]. by rewrite Hs, Hk, IH.
  - eapply Forall_impl; [exact Hclean|]. by intros u (_ & _ & Hu).
Qed.

Lemma lstrip_keeps (P : N -> Prop) (s : str) : Forall P s -> Forall P (lstrip s).
Proof.
  intros H. destruct (lstrip_split s) as (pre & Hs & _).
  rewrite Hs in H. by apply Forall_app in H as [_ H].
Qed.

Lemma strip_keeps (P : N -> Prop) (s : str) : Forall P s -> Forall P (strip s).
Proof.
  intros H. unfold strip, rstrip.
  by apply Forall_rev, lstrip_keeps, Forall_rev, lstrip_keeps.
Qed.

Lemma splitlines_from_no_break (s : str) :
  (forall cur, Forall (fun c => is_linebreak c = false) cur ->
               Forall (Forall (fun c => is_linebreak c = false)) (splitlines_from cur s))
  /\ (forall cur, Forall (fun c => is_linebreak c = false) cur ->
                  Forall (Forall (fun c => is_linebreak c = false))
                         (splitlines_from cur (tail s))).
Proof.
  induction s as [|c rest [IH1 IH2]].
  - assert (H : forall cur, Forall (fun c => is_linebreak c = false) cur ->
                 Forall (Forall (fun c => is_linebreak c = false)) (splitlines_from cur [])).
    { intros cur Hcur. cbn [splitlines_from]. destruct cur; [constructor|].
      constructor; [by apply Forall_rev|constructor]. }
    by split.
  - split; [|exact IH1].
    intros cur Hcur. cbn [splitlines_from].
    destruct (is_linebreak c) eqn:Hc.
    + destruct rest as [|n rest'].
      * constructor; [by apply Forall_rev|]. apply IH1. constructor.
      * destruct (N.eqb c 13 && N.eqb n 10).
        -- constructor; [by apply Forall_rev|]. apply IH2. constructor.
        -- constructor; [by apply Forall_rev|]. apply IH1. constructor.
    + apply IH1. by constructor.
Qed.

(** X2: whatever the text of the file, no URL that [load_urls] returns
    holds a line boundary: every entry comes from a single line. *)
Theorem load_urls_entries_single_line (content : str) :
  Forall (Forall (fun c => is_linebreak c = false)) (load_urls_text content).
Proof.
  unfold load_urls_text. rewrite load_urls_fold. cbn [app].
  apply Forall_forall. intros u Hu.
  apply list_elem_of_In, filter_In in Hu as [Hin _].
  apply in_map_iff in Hin as (l & <- & Hl). apply strip_keeps.
  destruct (splitlines_from_no_break content) as [Hlines _].
  specialize (Hlines [] ltac:(constructor)). rewrite Forall_forall in Hlines.
  apply Hlines. by apply list_elem_of_In.
Qed.

End LoaderMore.

Lemma load_urls_round_trip_witness :
  Forall clean [Demo.url_a; Cases.url_b]
  /\ load_urls_text (lines_text [Demo.url_a; Cases.url_b]) = [Demo.url_a; Cases.url_b].
Proof.
  assert (H : Forall clean [Demo.url_a; Cases.url_b]).
  { repeat constructor; by vm_compute. }
  split; [exact H|]. exact (load_urls_round_trip _ H).
Defined.

(** ** Fatal errors before the loop *)

Section FatalFacts.

Context {S : Type} (svc : service S).
Variable fuel : nat.

Lemma missing_not_nil (inp : inputs) :
  complete inp = false -> is_nil (List.filter (unset inp) required) = false.
Proof.
  unfold complete, required. cbn [forallb List.filter].
  destruct (unset inp (lit "DISCOVERY_API_KEY")); [done|].
  destruct (unset inp (lit "DISCOVERY_URL")); [done|].
  by destruct (unset inp (lit "DISCOVERY_PROJECT_ID")).
Qed.

(** X3: when a required configuration value is unset or empty, [main]
    prints one line naming exactly the missing keys, in the order
    API key, URL, project id, and exits with status 1.  That line is the
    whole log and the service state is untouched: the URL file is not
    looked at (the outcome is the same whether it exists or not) and the
    service is not contacted. *)
Theorem missing_config_stops_first (inp : inputs) (s : S) :
  complete inp = false ->
  let missing := List.filter (unset inp) required in
  main svc fuel inp s
    = (Exit 1, s,
       [EvPrint (lit "ERROR: Missing required config in .env: " ++ join (lit ", ") missing)])
  /\ missing <> []
  /\ (forall k, In k missing <-> In k required /\ unset inp k = true).
Proof.
  intros Hc missing. pose proof (missing_not_nil inp Hc) as Hnil.
  split; [|split].
  - unfold main. apply bind_exit. unfold load_config, missing. cbv zeta.
    by rewrite Hnil.
  - unfold missing. by destruct (List.filter (unset inp) required).
  - intros k. apply filter_In.
Qed.

(** X4: when [load_config] returns, it has changed nothing and printed
    nothing, and the three required values it returns are the non-empty
    values of the three variables; the version is the value of
    [DISCOVERY_API_VERSION], or "2023-03-31" when that variable is unset. *)
Theorem load_config_returns_set_values (inp : inputs) (s s' : S) (cfg : config)
    (evs : list event) :
  load_config inp s = (Val cfg, s', evs) ->
  s' = s /\ evs = []
  /\ getenv inp (lit "DISCOVERY_API_KEY") = Some (cfg_api_key cfg)
  /\ getenv inp (lit "DISCOVERY_URL") = Some (cfg_url cfg)
  /\ getenv inp (lit "DISCOVERY_PROJECT_ID") = Some (cfg_project_id cfg)
  /\ cfg_api_key cfg <> [] /\ cfg_url cfg <> [] /\ cfg_project_id cfg <> []
  /\ cfg_version cfg
     = default (lit "2023-03-31") (getenv inp (lit "DISCOVERY_API_VERSION")).
Proof.
  intros Hrun. destruct (complete inp) eqn:Hc.
  - rewrite (load_config_complete inp s Hc) in Hrun. injection Hrun as <- <- <-.
    unfold complete, required in Hc. cbn [forallb] in Hc.
    apply andb_prop in Hc as [H1 Hc]. apply andb_prop in Hc as [H2 Hc].
    apply andb_prop in Hc as [H3 _].
    unfold unset in H1, H2, H3. unfold config_of. cbn [cfg_api_key cfg_url cfg_project_id cfg_version].
    destruct (getenv inp (lit "DISCOVERY_API_KEY")) as [v1|]; [|done].
    destruct (getenv inp (lit "DISCOVERY_URL")) as [v2|]; [|done].
    destruct (getenv inp (lit "DISCOVERY_PROJECT_ID")) as [v3|]; [|done].
    cbn [default]. repeat split; try done.
    + by destruct v1.
    + by destruct v2.
    + by destruct v3.
  - destruct (load_config_missing inp s Hc) as [line Hm]. by rewrite Hm in Hrun.
Qed.

(** X5: with a complete configuration and no file at the path of the
    URL list, [main] prints one line naming that path and exits with
    status 1; that line is the whole log and the service is not
    contacted. *)
Theorem missing_url_file_stops (inp : inputs) (s : S) :
  complete inp = true ->
  files inp !! url_file inp = None ->
  main svc fuel inp s
    = (Exit 1, s, [EvPrint (lit "ERROR: URL file not found: " ++ url_file inp)]).
Proof.
  intros Hc Hfile. unfold main.
  rewrite (bind_val _ _ _ _ _ _ (load_config_complete inp s Hc)).
  assert (Hload : load_urls (S:=S) inp (url_file inp) s
                  = (Exit 1, s, [EvPrint (lit "ERROR: URL file not found: " ++ url_file inp)])).
  { unfold load_urls. by rewrite Hfile. }
  by rewrite (bind_exit _ _ _ _ _ _ Hload).
Qed.

Lemma collection_pairs_all (cs : list collection_obj) (s : S) :
  Forall (fun c => is_Some (coll_collection_id c)) cs ->
  collection_pairs cs s
  = (Val (map (fun c => (default [] (coll_collection_id c),
                         default (lit "Unnamed") (coll_name c))) cs), s, []).
Proof.
  induction 1 as [|c cs [cid Hc] _ IH]; [done|].
  cbn [collection_pairs map]. rewrite Hc. unfold bind. by rewrite IH.
Qed.

Lemma collection_pairs_some_missing (cs : list collection_obj) (s : S) :
  Exists (fun c => coll_collection_id c = None) cs ->
  collection_pairs cs s = (Raise (KeyError (lit "collection_id")), s, []).
Proof.
  induction cs as [|c cs IH]; [by intros ?%Exists_nil|].
  intros H. cbn [collection_pairs].
  destruct (coll_collection_id c) as [cid|] eqn:Hc; [|done].
  apply Exists_cons in H as [H|H]; [congruence|].
  unfold bind. by rewrite (IH H).
Qed.

(** X6: [get_collections] makes one list call.  If every collection
    object of the response has an id, it returns one pair per object, in
    the order of the response, with the name "Unnamed" for an object
    without a name; a response without a "collections" key gives the
    empty list.  If some object has no id, it raises
    [KeyError('collection_id')] and returns no pair at all. *)
Theorem get_collections_pairs (discovery : client) (project_id : str) (s s1 : S)
    (resp : collections_response) :
  svc_list_collections svc discovery project_id s = (Returned resp, s1) ->
  let cs := default [] (resp_collections resp) in
  (Forall (fun c => is_Some (coll_collection_id c)) cs ->
   get_collections svc discovery project_id s
   = (Val (map (fun c => (default [] (coll_collection_id c),
                          default (lit "Unnamed") (coll_name c))) cs),
      s1, [EvListCollections project_id (Returned resp)]))
  /\ (Exists (fun c => coll_collection_id c = None) cs ->
      get_collections svc discovery project_id s
      = (Raise (KeyError (lit "collection_id")), s1,
         [EvListCollections project_id (Returned resp)])).
Proof.
  intros Hlist cs. unfold get_collections, bind, api_call. rewrite Hlist. fold cs.
  split; intros H.
  - by rewrite (collection_pairs_all cs s1 H).
  - by rewrite (collection_pairs_some_missing cs s1 H).
Qed.

(** The log of [get_collections] is its one list call, and it ends by
    returning or raising. *)
Lemma get_collections_log (discovery : client) (project_id : str) (s s1 : S)
    (r : res (list (str * str))) (ev1 : list event) :
  get_collections svc discovery project_id s = (r, s1, ev1) ->
  (exists o, ev1 = [EvListCollections project_id o])
  /\ ((exists collections, r = Val collections) \/ (exists e, r = Raise e)).
Proof.
  unfold get_collections, bind, api_call.
  destruct (svc_list_collections svc discovery project_id s) as [[resp|e] s0].
  - generalize (default [] (resp_collections resp)). intros cs.
    assert (H : exists r', collection_pairs cs s0 = (r', s0, [])
                           /\ ((exists c, r' = Val c) \/ (exists e, r' = Raise e))).
    { induction cs as [|c cs (r' & IH & Hr)]; [by eexists; split; [|left; eexists]|].
      cbn [collection_pairs]. destruct (coll_collection_id c) as [cid|].
      - unfold bind. rewrite IH. destruct Hr as [[c' ->]|[e ->]].
        + eexists. split; [done|]. left. by eexists.
        + eexists. split; [done|]. right. by eexists.
      - eexists. split; [done|]. right. by eexists. }
    destruct H as (r' & -> & Hr). destruct Hr as [[c' ->]|[e ->]].
    + intros [= <- <- <-]. split; [by eexists|]. left. by eexists.
    + intros [= <- <- <-]. split; [by eexists|]. right. by eexists.
  - intros [= <- <- <-]. split; [by eexists|]. right. by eexists.
Qed.


End FatalFacts.

Lemma missing_config_stops_first_witness :
  complete Demo.inputs_no_key = false
  /\ main Demo.sticky 1 Demo.inputs_no_key tt
     = (Exit 1, tt,
        [EvPrint (lit "ERROR: Missing required config in .env: "
                  ++ join (lit ", ") [lit "DISCOVERY_API_KEY"])]).
Proof.
  assert (H : complete Demo.inputs_no_key = false) by by vm_compute.
  split; [exact H|].
  exact (proj1 (missing_config_stops_first Demo.sticky 1 Demo.inputs_no_key tt H)).
Defined.

Lemma load_config_returns_set_values_witness :
  load_config Demo.inputs_ok tt = (Val (config_of Demo.inputs_ok), tt, [])
  /\ cfg_api_key (config_of Demo.inputs_ok) <> [].
Proof.
  assert (H : load_config Demo.inputs_ok tt = (Val (config_of Demo.inputs_ok), tt, []))
    by by vm_compute.
  split; [exact H|].
  exact (proj1 (proj2 (proj2 (proj2 (proj2 (proj2
           (load_config_returns_set_values Demo.inputs_ok tt tt _ _ H))))))).
Defined.

Lemma missing_url_file_stops_witness :
  complete Demo.inputs_no_list = true
  /\ files Demo.inputs_no_list !! url_file Demo.inputs_no_list = None
  /\ main Demo.sticky 1 Demo.inputs_no_list tt
     = (Exit 1, tt, [EvPrint (lit "ERROR: URL file not found: " ++ lit "/tmp/missing.txt")]).
Proof.
  assert (Hc : complete Demo.inputs_no_list = true) by by vm_compute.
  assert (Hf : files Demo.inputs_no_list !! url_file Demo.inputs_no_list = None)
    by by vm_compute.
  split; [exact Hc|]. split; [exact Hf|].
  exact (missing_url_file_stops Demo.sticky 1 Demo.inputs_no_list tt Hc Hf).
Defined.

Lemma get_collections_pairs_witness :
  svc_list_collections (Cases.listing [Cases.unnamed]) Demo.client_ok (lit "p1") tt
    = (Returned (CollectionsResponse (Some [Cases.unnamed])), tt)
  /\ get_collections (Cases.listing [Cases.unnamed]) Demo.client_ok (lit "p1") tt
     = (Val [(lit "c9", lit "Unnamed")], tt,
        [EvListCollections (lit "p1")
                           (Returned (CollectionsResponse (Some [Cases.unnamed])))]).
Proof.
  split; [reflexivity|].
  refine (proj1 (get_collections_pairs (Cases.listing [Cases.unnamed]) Demo.client_ok
                   (lit "p1") tt tt _ eq_refl) _).
  repeat constructor. by eexists.
Defined.


(** ** More on the search of one collection *)

Section FindMore.

Context {S : Type} (svc : service S).
Variables (discovery : client) (project_id collection_id url : str).

Lemma query_event_request (evs : list event) (q : query_request)
    (o : outcome query_response) :
  EvQuery q o ∈ evs -> q ∈ query_requests evs.
Proof.
  intros H. unfold query_requests. apply list_elem_of_omap. by exists (EvQuery q o).
Qed.

Lemma found_ids_truthy (evs : list event) (d : str) : d ∈ found_ids evs -> d <> [].
Proof.
  induction evs as [|ev evs IH]; [by intros ?%elem_of_nil|].
  change (ev :: evs) with ([ev] ++ evs) at 1. rewrite found_ids_app.
  intros [Hd|Hd]%elem_of_app; [|by apply IH].
  destruct ev as [| | |q [resp|e]|]; try by apply elem_of_nil in Hd.
  unfold found_ids in Hd. simpl in Hd. rewrite app_nil_r in Hd.
  apply list_elem_of_omap in Hd as (obj & _ & Hid).
  unfold id_of in Hid. destruct (doc_document_id obj) as [d'|]; [|done].
  destruct d'; [done|]. by injection Hid as <-.
Qed.

(** The calls of the loop, whatever its end: consecutive pages from the
    offset it was entered with, never more than the budget allows, and at
    least one unless the budget was empty. *)
Lemma find_loop_requests (fuel offset : nat) (acc : list str) (s s' : S)
    (r : res (list str)) (evs : list event) :
  find_loop svc fuel discovery project_id collection_id url offset acc s = (r, s', evs) ->
  query_requests evs
  = map (fun i => request_at project_id collection_id url (offset + i * page_size))
        (seq 0 (length evs))
  /\ length evs <= fuel
  /\ (r <> Fuel -> 1 <= length evs).
Proof.
  revert offset acc s s' r evs.
  induction fuel as [|fuel IH]; intros offset acc s s' r evs.
  - intros [= <- <- <-]. by repeat split.
  - rewrite find_loop_step. cbv zeta.
    assert (Hone : forall o,
      query_requests [EvQuery (request_at project_id collection_id url offset) o]
      = map (fun i => request_at project_id collection_id url (offset + i * page_size))
            (seq 0 1)).
    { intros o. cbn [seq map]. by rewrite Nat.add_0_r. }
    destruct (svc_query svc discovery _ s) as [[resp|e] s1].
    + destruct (is_nil (results_of resp)).
      { intros [= <- <- <-]. split; [apply Hone|]. simpl. split; lia. }
      destruct (length (results_of resp) <? page_size).
      { intros [= <- <- <-]. split; [apply Hone|]. simpl. split; lia. }
      destruct (find_loop _ _ _ _ _ _ _ _ _) as [[r2 s2] ev2] eqn:Hrec.
      intros [= <- <- <-]. apply IH in Hrec as (Hreq & Hlen & _).
      split; [|simpl; split; lia].
      change (query_requests (EvQuery ?q ?o :: ?l)) with (q :: query_requests l).
      rewrite Hreq. cbn [length seq map]. rewrite Nat.add_0_r. f_equal.
      rewrite <- seq_shift, map_map. apply map_ext. intros i. f_equal.
      unfold page_size. lia.
    + intros [= <- <- <-]. split; [apply Hone|]. simpl. split; lia.
Qed.

(** X8: whatever the service answers and however the search ends, the
    [query] calls of [find_documents_by_url] are nothing but page
    requests for the one project, the one collection and the one exact
    match filter on the URL, with count 100 and offsets 0, 100, 200, ...
    without a gap; a search that ends, with a list or an exception, has
    made at least one call. *)
Theorem find_requests_consecutive_pages (fuel : nat) (s s' : S) (r : res (list str))
    (evs : list event) :
  find_documents_by_url svc fuel discovery project_id collection_id url s = (r, s', evs) ->
  query_requests evs
  = map (fun i => request_at project_id collection_id url (100 * i)) (seq 0 (length evs))
  /\ length (query_requests evs) = length evs
  /\ length evs <= fuel
  /\ (r <> Fuel -> 1 <= length evs).
Proof.
  intros Hrun. unfold find_documents_by_url in Hrun.
  apply find_loop_requests in Hrun as (Hreq & Hlen & Hone).
  assert (Hreq' : query_requests evs
    = map (fun i => request_at project_id collection_id url (100 * i))
          (seq 0 (length evs))).
  { rewrite Hreq. apply map_ext. intros i. f_equal. unfold page_size. lia. }
  split; [exact Hreq'|]. split; [|by split].
  by rewrite Hreq', length_map, length_seq.
Qed.

(** Where the ids of a search come from. *)
Lemma find_ids_served (fuel : nat) (s s' : S) (ids : list str)
    (evs : list event) :
  find_documents_by_url svc fuel discovery project_id collection_id url s
    = (Val ids, s', evs) ->
  forall d,
    d ∈ ids ->
    d <> []
    /\ exists i resp obj,
         EvQuery (request_at project_id collection_id url (100 * i)) (Returned resp) ∈ evs
         /\ obj ∈ results_of resp
         /\ doc_document_id obj = Some d.
Proof.
  intros Hrun d Hd. unfold find_documents_by_url in Hrun.
  pose proof (find_loop_requests _ _ _ _ _ _ _ Hrun) as (Hreq & _ & _).
  apply find_loop_spec in Hrun as (_ & _ & Hids).
  rewrite (Hids ids eq_refl) in Hd. cbn [app] in Hd.
  split; [by apply (found_ids_truthy evs)|].
  apply found_ids_elem in Hd as (q & resp & obj & Hin & Hobj & Hid).
  pose proof (query_event_request _ _ _ Hin) as Hq. rewrite Hreq in Hq.
  apply list_elem_of_fmap in Hq as (i & -> & _).
  exists i, resp, obj. split; [|done].
  replace (100 * i) with (0 + i * page_size) by (unfold page_size; lia). done.
Qed.

(** X9: every id that [find_documents_by_url] returns is a non-empty
    string and is the [document_id] of a result object that the service
    returned, in that search, for a page request on that collection and
    URL: the function invents no id and returns no empty one. *)
Theorem find_returns_served_ids (fuel : nat) (s s' : S) (ids : list str)
    (evs : list event) :
  find_documents_by_url svc fuel discovery project_id collection_id url s
    = (Val ids, s', evs) ->
  forall d,
    d ∈ ids ->
    d <> []
    /\ exists i resp obj,
         EvQuery (request_at project_id collection_id url (100 * i)) (Returned resp) ∈ evs
         /\ obj ∈ results_of resp
         /\ doc_document_id obj = Some d.
Proof. apply find_ids_served. Qed.

(** X10: the loop has no bound of its own.  Against a service that
    answers every page request with at least 100 results, it has not
    returned after any number of calls: whatever the budget, the budget
    is used up, one call per unit. *)
Theorem find_never_ends_on_full_pages (fuel : nat) (s : S) :
  (forall q s0, exists resp s1,
      svc_query svc discovery q s0 = (Returned resp, s1)
      /\ page_size <= length (results_of resp)) ->
  exists s' evs,
    find_documents_by_url svc fuel discovery project_id collection_id url s
      = (Fuel, s', evs)
    /\ length evs = fuel.
Proof.
  intros Hfull. unfold find_documents_by_url. generalize 0 at 1. generalize (@nil str).
  revert s. induction fuel as [|fuel IH]; intros s acc offset.
  - by exists s, [].
  - rewrite find_loop_step. cbv zeta.
    destruct (Hfull (request_at project_id collection_id url offset) s)
      as (resp & s1 & -> & Hlen).
    destruct (results_of resp) as [|obj objs] eqn:R.
    { unfold page_size in Hlen. simpl in Hlen. lia. }
    cbn [is_nil]. apply Nat.ltb_ge in Hlen. rewrite Hlen.
    destruct (IH s1 (acc ++ page_ids (obj :: objs)) (offset + page_size))
      as (s' & evs & -> & Hn).
    eexists s', _. split; [reflexivity|]. simpl. by rewrite Hn.
Qed.

(** X11: the filter is an exact match on the whole URL: two URLs that
    differ in any character, a trailing slash or a query string included,
    give different filters. *)
Theorem filter_query_injective (url1 url2 : str) :
  filter_query url1 = filter_query url2 -> url1 = url2.
Proof.
  unfold filter_query. intros H.
  apply app_inv_head in H. injection H as H.
  by apply app_inv_tail in H.
Qed.

End FindMore.

Lemma find_requests_consecutive_pages_witness :
  find_documents_by_url Demo.scripted 2 Demo.client_ok (lit "p1") (lit "c1") Demo.url_a
                        [Demo.full_page; Demo.short_page]
    = (Val (replicate 100 (lit "d") ++ [lit "e"; lit "f"]), [],
       query_log (lit "p1") (lit "c1") Demo.url_a 0 [Demo.full_page; Demo.short_page])
  /\ query_requests (query_log (lit "p1") (lit "c1") Demo.url_a 0
                               [Demo.full_page; Demo.short_page])
     = [request_at (lit "p1") (lit "c1") Demo.url_a 0;
        request_at (lit "p1") (lit "c1") Demo.url_a 100].
Proof.
  assert (H : find_documents_by_url Demo.scripted 2 Demo.client_ok (lit "p1") (lit "c1")
                Demo.url_a [Demo.full_page; Demo.short_page]
              = (Val (replicate 100 (lit "d") ++ [lit "e"; lit "f"]), [],
                 query_log (lit "p1") (lit "c1") Demo.url_a 0
                           [Demo.full_page; Demo.short_page])) by by vm_compute.
  split; [exact H|].
  exact (proj1 (find_requests_consecutive_pages Demo.scripted Demo.client_ok (lit "p1")
                  (lit "c1") Demo.url_a 2 _ _ _ _ H)).
Defined.

Lemma find_returns_served_ids_witness :
  find_documents_by_url Demo.gappy 1 Demo.client_ok (lit "p1") (lit "c1") Demo.url_a tt
    = (Val [lit "d1"; lit "d3"], tt,
       [EvQuery (request_at (lit "p1") (lit "c1") Demo.url_a 0) Demo.gap_page])
  /\ lit "d3" <> [].
Proof.
  assert (H : find_documents_by_url Demo.gappy 1 Demo.client_ok (lit "p1") (lit "c1")
                Demo.url_a tt
              = (Val [lit "d1"; lit "d3"], tt,
                 [EvQuery (request_at (lit "p1") (lit "c1") Demo.url_a 0) Demo.gap_page]))
    by reflexivity.
  split; [exact H|].
  refine (proj1 (find_returns_served_ids Demo.gappy Demo.client_ok (lit "p1") (lit "c1")
                   Demo.url_a 1 tt tt _ _ H (lit "d3") _)).
  apply list_elem_of_further, list_elem_of_here.
Defined.

Lemma find_never_ends_on_full_pages_witness :
  exists s' evs,
    find_documents_by_url Cases.endless 3 Demo.client_ok (lit "p1") (lit "c1") Demo.url_a tt
      = (Fuel, s', evs)
    /\ length evs = 3.
Proof.
  apply (find_never_ends_on_full_pages Cases.endless Demo.client_ok (lit "p1") (lit "c1")
           Demo.url_a 3 tt).
  intros q s0. exists Demo.full_page, s0. split; [reflexivity|].
  vm_compute. repeat constructor.
Defined.

Lemma filter_query_injective_witness :
  filter_query Demo.url_a = filter_query (lit "https://a.example/x")
  /\ Demo.url_a = lit "https://a.example/x".
Proof.
  split; [reflexivity|].
  exact (filter_query_injective Demo.url_a (lit "https://a.example/x") eq_refl).
Defined.

(** ** More on the loops *)

Section LoopsMore.

Context {S : Type} (svc : service S).
Variables (fuel : nat) (discovery : client) (project_id : str).

Lemma calls_split (evs : list event) :
  length (deleted_calls evs) + length (failed_calls evs) = length (delete_requests evs).
Proof.
  induction evs as [|ev evs IH]; [done|].
  destruct ev as [| | | |r o]; try exact IH.
  change (EvDelete r o :: evs) with ([EvDelete r o] ++ evs).
  rewrite deleted_calls_app, failed_calls_app, delete_requests_app, !length_app, <- IH.
  unfold deleted_calls, failed_calls, delete_requests. simpl.
  destruct (returned_deleted o); simpl; lia.
Qed.

(** What the accumulators gain is what the calls were. *)
Lemma accounted_total (t t' : tally) (evs : list event) :
  accounted t evs t' ->
  total_deleted t' + length (errors t')
  = total_deleted t + length (errors t) + length (delete_requests evs).
Proof.
  intros (Hd & later & He & Hl). apply (f_equal (@length _)) in Hl.
  rewrite !length_map in Hl. rewrite He, length_app, Hd, Hl, <- calls_split. lia.
Qed.

Lemma delete_loop_no_query (url collection_id collection_name : str) (doc_ids : list str)
    (t : tally) (s : S) :
  query_requests (snd (delete_loop svc discovery project_id url collection_id
                                   collection_name doc_ids t s)) = [].
Proof.
  revert t s. induction doc_ids as [|d ds IH]; intros t s; [done|].
  cbn [delete_loop].
  pose proof (delete_step_run svc discovery project_id url collection_id collection_name
                              d t s) as Hstep.
  cbv zeta in Hstep. destruct (svc_delete_document svc discovery _ s) as [o s1].
  rewrite (bind_val _ _ _ _ _ _ Hstep). specialize (IH (tally_after url collection_name d t o) s1).
  destruct (delete_loop _ _ _ _ _ _ ds _ s1) as [[r2 s2] ev2]. cbn [snd] in *.
  change (query_requests ([EvDelete ?a ?b; EvPrint ?c] ++ ev2)) with (query_requests ev2).
  exact IH.
Qed.

(** X12: the delete loop of a collection always runs to its end, whatever
    the calls do: it makes exactly one [delete_document] call per id it
    was given, in order and without leaving out repeated ids, makes no
    [query] call, and every id ends either in the deleted counter or in
    one new error record. *)
Theorem delete_loop_tries_every_id (url collection_id collection_name : str)
    (doc_ids : list str) (t : tally) (s : S) :
  exists t' s' evs,
    delete_loop svc discovery project_id url collection_id collection_name doc_ids t s
      = (Val t', s', evs)
    /\ delete_requests evs = map (DeleteRequest project_id collection_id) doc_ids
    /\ query_requests evs = []
    /\ total_deleted t' + length (errors t')
       = total_deleted t + length (errors t) + length doc_ids
    /\ total_not_found t' = total_not_found t.
Proof.
  destruct (delete_loop_spec svc discovery project_id url collection_id collection_name
              doc_ids t s) as (t' & s' & evs & Hrun & Hreq & _ & Hacc & Hnf).
  exists t', s', evs. split; [exact Hrun|]. split; [exact Hreq|]. split; [|split; [|exact Hnf]].
  - pose proof (delete_loop_no_query url collection_id collection_name doc_ids t s) as Hq.
    by rewrite Hrun in Hq.
  - rewrite (accounted_total _ _ _ Hacc), Hreq. by rewrite length_map.
Qed.

(** X13: in a URL loop that runs to its end, the documents passed to
    [delete_document] are exactly the ids the searches returned, in the
    order they were returned, and each of them ends either in the deleted
    counter or in one new error record: none is dropped. *)
Theorem every_found_id_is_accounted (collections : list (str * str)) (urls : list str)
    (t t' : tally) (s s' : S) (evs : list event) :
  urls_loop svc fuel discovery project_id collections urls t s = (Val t', s', evs) ->
  map d_document_id (delete_requests evs) = found_ids evs
  /\ total_deleted t' + length (errors t')
     = total_deleted t + length (errors t) + length (found_ids evs).
Proof.
  intros Hrun. apply urls_loop_spec in Hrun as (_ & (extra & Hprov & Hval) & Hacc).
  rewrite (Hval t' eq_refl), app_nil_r in Hprov.
  split; [done|].
  rewrite (accounted_total _ _ _ (Hacc t' eq_refl)), Hprov. by rewrite length_map.
Qed.

(** The not-found counter over the URL loop. *)
Lemma urls_loop_not_found (collections : list (str * str)) (urls : list str)
    (t t' : tally) (s s' : S) (evs : list event) :
  urls_loop svc fuel discovery project_id collections urls t s = (Val t', s', evs) ->
  total_not_found t <= total_not_found t'
  /\ total_not_found t' <= total_not_found t + length urls
  /\ (found_ids evs = [] -> total_not_found t' = total_not_found t + length urls).
Proof.
  revert t s s' evs. induction urls as [|url rest IH]; intros t s s' evs.
  - intros [= <- <- <-]. simpl. repeat split; lia.
  - cbn [urls_loop]. intros Hrun.
    apply bind_val_inv in Hrun as (t1 & s1 & ev1 & ev2 & Hurl & Hrest & ->).
    apply process_url_spec in Hurl as (_ & _ & Hacc1).
    destruct (Hacc1 t1 eq_refl) as [_ Hnf1].
    apply IH in Hrest as (Hlo & Hhi & Hnone). cbn [length].
    split; [|split].
    + destruct (is_nil (found_ids ev1)); lia.
    + destruct (is_nil (found_ids ev1)); lia.
    + rewrite found_ids_app. intros [H1 H2]%app_eq_nil.
      rewrite H1 in Hnf1. cbn [is_nil] in Hnf1. rewrite (Hnone H2). lia.
Qed.

(** X14: in a URL loop that runs to its end, the not-found counter never
    goes down and grows by at most one per URL.  If the searches returned
    no id at all, it grows by exactly the number of URLs, and nothing is
    deleted or recorded. *)
Theorem not_found_counter_bounds (collections : list (str * str)) (urls : list str)
    (t t' : tally) (s s' : S) (evs : list event) :
  urls_loop svc fuel discovery project_id collections urls t s = (Val t', s', evs) ->
  total_not_found t <= total_not_found t'
  /\ total_not_found t' <= total_not_found t + length urls
  /\ (found_ids evs = [] ->
      total_not_found t' = total_not_found t + length urls
      /\ total_deleted t' = total_deleted t
      /\ errors t' = errors t
      /\ delete_requests evs = []).
Proof.
  intros Hrun.
  pose proof (urls_loop_not_found _ _ _ _ _ _ _ Hrun) as Hnf.
  destruct Hnf as (Hlo & Hhi & Hnone). split; [exact Hlo|]. split; [exact Hhi|].
  intros Hempty. split; [by apply Hnone|].
  apply urls_loop_spec in Hrun as (_ & (extra & Hprov & Hval) & Hacc).
  rewrite (Hval t' eq_refl), app_nil_r, Hempty in Hprov.
  symmetry in Hprov. apply map_eq_nil in Hprov.
  pose proof (calls_split evs) as Hsplit. rewrite Hprov in Hsplit. cbn [length] in Hsplit.
  destruct (Hacc t' eq_refl) as (Hd & later & He & Hl).
  destruct (deleted_calls evs); [|simpl in Hsplit; lia].
  destruct (failed_calls evs); [|simpl in Hsplit; lia].
  destruct later; [|done]. rewrite app_nil_r in He. simpl in Hd.
  split; [lia|]. by split.
Qed.

End LoopsMore.

Lemma every_found_id_is_accounted_witness :
  urls_loop Demo.failing 1 Demo.client_ok (lit "p1") [(lit "c1", lit "A")] [Demo.url_a]
            Demo.start tt
    = (Val (Tally 0 0 [(Demo.url_a, lit "d1", lit "A", exn_str Demo.server_error)]), tt,
       [EvPrint (lit "Processing: " ++ Demo.url_a);
        EvQuery (request_at (lit "p1") (lit "c1") Demo.url_a 0) Demo.one_match;
        EvDelete (DeleteRequest (lit "p1") (lit "c1") (lit "d1")) (Raised Demo.server_error);
        EvPrint (lit "  ERROR deleting doc d1 from 'A': "
                 ++ exn_str Demo.server_error)])
  /\ map d_document_id
         (delete_requests
            [EvPrint (lit "Processing: " ++ Demo.url_a);
             EvQuery (request_at (lit "p1") (lit "c1") Demo.url_a 0) Demo.one_match;
             EvDelete (DeleteRequest (lit "p1") (lit "c1") (lit "d1"))
                      (Raised Demo.server_error);
             EvPrint (lit "  ERROR deleting doc d1 from 'A': "
                      ++ exn_str Demo.server_error)])
     = [lit "d1"].
Proof.
  split; [reflexivity|].
  exact (proj1 (every_found_id_is_accounted Demo.failing 1 Demo.client_ok (lit "p1")
                  [(lit "c1", lit "A")] [Demo.url_a] Demo.start _ tt tt _ eq_refl)).
Defined.

Lemma not_found_counter_bounds_witness :
  urls_loop Demo.empty_index 1 Demo.client_ok (lit "p1") Demo.collections_ab
            [Demo.url_a; Cases.url_b] Demo.start tt
    = (Val (Tally 0 2 []), tt,
       snd (urls_loop Demo.empty_index 1 Demo.client_ok (lit "p1") Demo.collections_ab
                      [Demo.url_a; Cases.url_b] Demo.start tt))
  /\ total_not_found (Tally 0 2 []) <= total_not_found Demo.start + 2.
Proof.
  assert (H : urls_loop Demo.empty_index 1 Demo.client_ok (lit "p1") Demo.collections_ab
                [Demo.url_a; Cases.url_b] Demo.start tt
              = (Val (Tally 0 2 []), tt,
                 snd (urls_loop Demo.empty_index 1 Demo.client_ok (lit "p1")
                                Demo.collections_ab [Demo.url_a; Cases.url_b]
                                Demo.start tt))) by reflexivity.
  split; [exact H|].
  exact (proj1 (proj2 (not_found_counter_bounds Demo.empty_index 1 Demo.client_ok (lit "p1")
                         Demo.collections_ab [Demo.url_a; Cases.url_b] Demo.start _ tt tt
                         _ H))).
Defined.

(** ** Error records, order of the searches, targets of the deletes *)

Section LoopsOrder.

Context {S : Type} (svc : service S).
Variables (fuel : nat) (discovery : client) (project_id : str).

Lemma tally_after_errors (url collection_name doc_id : str) (t : tally)
    (o : outcome delete_response) :
  exists later,
    errors (tally_after url collection_name doc_id t o) = errors t ++ later
    /\ Forall (fun e => error_url e = url /\ error_collection e = collection_name) later.
Proof.
  unfold tally_after. destruct o as [r|e].
  - destruct (bool_decide (resp_status r = Some (lit "deleted"))).
    + exists []. split; [by rewrite app_nil_r|constructor].
    + eexists [_]. split; [done|]. by repeat constructor.
  - eexists [_]. split; [done|]. by repeat constructor.
Qed.

Lemma delete_loop_errors (url collection_id collection_name : str) (doc_ids : list str)
    (t t' : tally) (s s' : S) (evs : list event) :
  delete_loop svc discovery project_id url collection_id collection_name doc_ids t s
    = (Val t', s', evs) ->
  exists later,
    errors t' = errors t ++ later
    /\ Forall (fun e => error_url e = url /\ error_collection e = collection_name) later.
Proof.
  revert t s s' evs. induction doc_ids as [|d ds IH]; intros t s s' evs.
  - intros [= <- <- <-]. exists []. split; [by rewrite app_nil_r|constructor].
  - cbn [delete_loop].
    pose proof (delete_step_run svc discovery project_id url collection_id collection_name
                                d t s) as Hstep.
    cbv zeta in Hstep. destruct (svc_delete_document svc discovery _ s) as [o s1].
    intros Hrun. destruct (bind_val_run _ _ _ _ _ _ _ _ _ Hstep Hrun) as (ev2 & Hrest & _).
    apply IH in Hrest as (l2 & He2 & Hl2).
    destruct (tally_after_errors url collection_name d t o) as (l1 & He1 & Hl1).
    exists (l1 ++ l2). split; [by rewrite He2, He1, app_assoc|by apply Forall_app].
Qed.

Lemma collections_loop_errors (url : str) (todo : list (str * str)) (found_any : bool)
    (t : tally) (s s' : S) (found_any' : bool) (t' : tally) (evs : list event) :
  collections_loop svc fuel discovery project_id url todo found_any t s
    = (Val (found_any', t'), s', evs) ->
  exists later,
    errors t' = errors t ++ later
    /\ Forall (fun e => error_url e = url /\ error_collection e ∈ map snd todo) later.
Proof.
  revert found_any t s s' evs. induction todo as [|[cid cname] rest IH]; intros fa t s s' evs.
  - intros [= <- <- <- <-]. exists []. split; [by rewrite app_nil_r|constructor].
  - cbn [collections_loop]. intros Hrun.
    apply bind_val_inv in Hrun as (docs & s1 & ev1 & ev2 & _ & Hk & _).
    assert (Hweak : forall l,
      Forall (fun e => error_url e = url /\ error_collection e ∈ map snd rest) l ->
      Forall (fun e => error_url e = url
                       /\ error_collection e ∈ map snd ((cid, cname) :: rest)) l).
    { intros l Hl. eapply Forall_impl; [exact Hl|].
      intros e [Hu Hc]. split; [done|]. by right. }
    destruct (is_nil docs).
    + apply IH in Hk as (later & He & Hl). exists later. split; [done|by apply Hweak].
    + apply bind_val_inv in Hk as (t1 & s2 & ev3 & ev4 & Hdel & Hrest & _).
      apply delete_loop_errors in Hdel as (l1 & He1 & Hl1).
      apply IH in Hrest as (l2 & He2 & Hl2).
      exists (l1 ++ l2). split; [by rewrite He2, He1, app_assoc|].
      apply Forall_app. split; [|by apply Hweak].
      eapply Forall_impl; [exact Hl1|]. intros e [Hu ->]. split; [done|]. by left.
Qed.

Lemma urls_loop_errors (collections : list (str * str)) (urls : list str)
    (t t' : tally) (s s' : S) (evs : list event) :
  urls_loop svc fuel discovery project_id collections urls t s = (Val t', s', evs) ->
  exists later,
    errors t' = errors t ++ later
    /\ Forall (fun e => error_url e ∈ urls /\ error_collection e ∈ map snd collections)
              later.
Proof.
  revert t s s' evs. induction urls as [|url rest IH]; intros t s s' evs.
  - intros [= <- <- <-]. exists []. split; [by rewrite app_nil_r|constructor].
  - cbn [urls_loop]. intros Hrun.
    apply bind_val_inv in Hrun as (t1 & s1 & ev1 & ev2 & Hurl & Hrest & _).
    unfold process_url in Hurl.
    apply bind_val_inv in Hurl as ([] & s2 & ev3 & ev4 & _ & Hurl & _).
    apply bind_val_inv in Hurl as ([fa t2] & s3 & ev5 & ev6 & Hloop & Hclose & _).
    apply collections_loop_errors in Hloop as (l1 & He1 & Hl1).
    assert (Ht1 : errors t1 = errors t2).
    { unfold close_url in Hclose. cbn [fst snd] in Hclose.
      destruct fa; by injection Hclose as <- _ _. }
    apply IH in Hrest as (l2 & He2 & Hl2).
    exists (l1 ++ l2). split; [by rewrite He2, Ht1, He1, app_assoc|].
    apply Forall_app. split.
    + eapply Forall_impl; [exact Hl1|]. intros e [-> Hc]. split; [by left|done].
    + eapply Forall_impl; [exact Hl2|]. intros e [Hu Hc]. split; [by right|done].
Qed.

(** X15: in a URL loop that runs to its end, the error records that were
    added are in the order of the [delete_document] calls that failed
    (raised or returned another status), one record per such call with
    the document id of the call; each record carries one of the URLs of
    the list and the name of one of the collections. *)
Theorem error_records_follow_failed_calls (collections : list (str * str))
    (urls : list str) (t t' : tally) (s s' : S) (evs : list event) :
  urls_loop svc fuel discovery project_id collections urls t s = (Val t', s', evs) ->
  exists later,
    errors t' = errors t ++ later
    /\ map error_doc later = map d_document_id (failed_calls evs)
    /\ Forall (fun e => error_url e ∈ urls /\ error_collection e ∈ map snd collections)
              later.
Proof.
  intros Hrun. destruct (urls_loop_errors _ _ _ _ _ _ _ Hrun) as (later & He & Hl).
  apply urls_loop_spec in Hrun as (_ & _ & Hacc).
  destruct (Hacc t' eq_refl) as (_ & later' & He' & Hdocs).
  rewrite He in He'. apply app_inv_head in He'. subst later'.
  by exists later.
Qed.

Lemma first_pages_app (ev1 ev2 : list event) :
  first_pages (ev1 ++ ev2) = first_pages ev1 ++ first_pages ev2.
Proof.
  unfold first_pages, query_requests. by rewrite omap_app, List.filter_app.
Qed.

Lemma later_pages_dropped (project collection_id url : str) (a n : nat) :
  1 <= a ->
  List.filter (fun q => q_offset q =? 0)
              (map (fun i => request_at project collection_id url (0 + i * page_size))
                   (seq a n)) = [].
Proof.
  revert a. induction n as [|n IH]; intros a Ha; [done|].
  cbn [seq map List.filter q_offset request_at].
  destruct (0 + a * page_size =? 0) eqn:E.
  - apply Nat.eqb_eq in E. unfold page_size in E. lia.
  - apply IH. lia.
Qed.

(** A search that returns has asked for its first page once. *)
Lemma find_first_page (collection_id url : str) (s s' : S) (ids : list str)
    (evs : list event) :
  find_documents_by_url svc fuel discovery project_id collection_id url s
    = (Val ids, s', evs) ->
  first_pages evs = [request_at project_id collection_id url 0].
Proof.
  intros Hrun. unfold find_documents_by_url in Hrun.
  apply find_loop_requests in Hrun as (Hreq & _ & Hone).
  specialize (Hone ltac:(done)). unfold first_pages. rewrite Hreq.
  destruct (length evs) as [|n]; [lia|].
  cbn [seq map List.filter q_offset request_at]. cbn [Nat.add Nat.mul Nat.eqb].
  f_equal. apply later_pages_dropped. lia.
Qed.

Lemma collections_loop_first_pages (url : str) (todo : list (str * str)) (found_any : bool)
    (t : tally) (s s' : S) (v : bool * tally) (evs : list event) :
  collections_loop svc fuel discovery project_id url todo found_any t s = (Val v, s', evs) ->
  first_pages evs = map (fun c => request_at project_id (fst c) url 0) todo.
Proof.
  revert found_any t s s' evs. induction todo as [|[cid cname] rest IH]; intros fa t s s' evs.
  - by intros [= <- <- <-].
  - cbn [collections_loop]. intros Hrun.
    apply bind_val_inv in Hrun as (docs & s1 & ev1 & ev2 & Hfind & Hk & ->).
    apply find_first_page in Hfind. rewrite first_pages_app, Hfind. cbn [map fst app].
    f_equal. destruct (is_nil docs); [by apply IH in Hk|].
    apply bind_val_inv in Hk as (t1 & s2 & ev3 & ev4 & Hdel & Hrest & ->).
    pose proof (delete_loop_no_query svc discovery project_id url cid cname docs t s1) as Hq.
    rewrite Hdel in Hq. cbn [snd] in Hq.
    rewrite first_pages_app. unfold first_pages at 1. rewrite Hq. cbn [List.filter app].
    by apply IH in Hrest.
Qed.

(** X16: in a URL loop that runs to its end, every URL of the list has
    been searched in every collection exactly once, URLs in the order of
    the list and, for each URL, collections in the order of the project
    listing: the first-page requests of the log are exactly these
    searches, [|urls| * |collections|] of them. *)
Theorem every_pair_searched_once_in_order (collections : list (str * str))
    (urls : list str) (t t' : tally) (s s' : S) (evs : list event) :
  urls_loop svc fuel discovery project_id collections urls t s = (Val t', s', evs) ->
  first_pages evs = searches project_id collections urls
  /\ length (first_pages evs) = length urls * length collections.
Proof.
  intros Hrun.
  assert (H : first_pages evs = searches project_id collections urls).
  { revert t s s' evs Hrun. induction urls as [|url rest IH]; intros t s s' evs.
    - by intros [= <- <- <-].
    - cbn [urls_loop]. intros Hrun.
      apply bind_val_inv in Hrun as (t1 & s1 & ev1 & ev2 & Hurl & Hrest & ->).
      unfold process_url in Hurl.
      apply bind_val_inv in Hurl as ([] & s2 & ev3 & ev4 & Hp & Hurl & ->).
      apply bind_val_inv in Hurl as ([fa t2] & s3 & ev5 & ev6 & Hloop & Hclose & ->).
      injection Hp as <- <-.
      assert (H6 : first_pages ev6 = []).
      { unfold close_url in Hclose. cbn [fst snd] in Hclose.
        destruct fa; by injection Hclose as _ _ <-. }
      apply collections_loop_first_pages in Hloop. apply IH in Hrest.
      rewrite !first_pages_app, Hloop, H6, Hrest, app_nil_r. done. }
  split; [exact H|]. rewrite H. unfold searches. clear.
  induction urls as [|url rest IH]; [done|].
  cbn [flat_map length]. rewrite length_app, length_map, IH. lia.
Qed.

End LoopsOrder.

Lemma error_records_follow_failed_calls_witness :
  fst (fst (urls_loop Demo.failing 1 Demo.client_ok (lit "p1") [(lit "c1", lit "A")]
                      [Demo.url_a] Demo.start tt))
    = Val (Tally 0 0 [(Demo.url_a, lit "d1", lit "A", exn_str Demo.server_error)])
  /\ exists later,
       errors (Tally 0 0 [(Demo.url_a, lit "d1", lit "A", exn_str Demo.server_error)])
         = errors Demo.start ++ later
       /\ map error_doc later = [lit "d1"].
Proof.
  split; [reflexivity|].
  destruct (error_records_follow_failed_calls Demo.failing 1 Demo.client_ok (lit "p1")
              [(lit "c1", lit "A")] [Demo.url_a] Demo.start _ tt tt _ eq_refl)
    as (later & He & Hd & _).
  exists later. by split.
Defined.

Lemma every_pair_searched_once_in_order_witness :
  fst (fst (urls_loop Demo.empty_index 1 Demo.client_ok (lit "p1") Demo.collections_ab
                      [Demo.url_a; Cases.url_b] Demo.start tt))
    = Val (Tally 0 2 [])
  /\ first_pages (snd (urls_loop Demo.empty_index 1 Demo.client_ok (lit "p1")
                                 Demo.collections_ab [Demo.url_a; Cases.url_b]
                                 Demo.start tt))
     = [request_at (lit "p1") (lit "c1") Demo.url_a 0;
        request_at (lit "p1") (lit "c2") Demo.url_a 0;
        request_at (lit "p1") (lit "c1") Cases.url_b 0;
        request_at (lit "p1") (lit "c2") Cases.url_b 0].
Proof.
  split; [reflexivity|].
  exact (proj1 (every_pair_searched_once_in_order Demo.empty_index 1 Demo.client_ok
                  (lit "p1") Demo.collections_ab [Demo.url_a; Cases.url_b] Demo.start
                  (Tally 0 2 []) tt tt _ eq_refl)).
Defined.

(** ** What is deleted *)

Section DeleteTargets.

Context {S : Type} (svc : service S).
Variables (fuel : nat) (discovery : client) (project_id : str).

Lemma justified_in_nil (ok_url ok_collection : str -> Prop) (dels evs : list event) :
  delete_requests dels = [] -> justified_in project_id ok_url ok_collection dels evs.
Proof. intros H req Hreq. rewrite H in Hreq. by apply elem_of_nil in Hreq. Qed.

Lemma justified_in_app (ok_url ok_collection : str -> Prop) (d1 d2 evs : list event) :
  justified_in project_id ok_url ok_collection d1 evs ->
  justified_in project_id ok_url ok_collection d2 evs ->
  justified_in project_id ok_url ok_collection (d1 ++ d2) evs.
Proof.
  intros H1 H2 req Hreq. rewrite delete_requests_app in Hreq.
  apply elem_of_app in Hreq as [Hreq|Hreq]; [by apply H1|by apply H2].
Qed.

Lemma justified_in_mono (ok_url ok_url' ok_collection ok_collection' : str -> Prop)
    (dels evs evs' : list event) :
  justified_in project_id ok_url ok_collection dels evs ->
  (forall u, ok_url u -> ok_url' u) ->
  (forall c, ok_collection c -> ok_collection' c) ->
  (forall ev, ev ∈ evs -> ev ∈ evs') ->
  justified_in project_id ok_url' ok_collection' dels evs'.
Proof.
  intros H Hu Hc Hev req Hreq.
  destruct (H req Hreq) as (Hp & Hcoll & url & i & resp & obj & Hurl & Hin & Hobj & Hid).
  split; [done|]. split; [by apply Hc|].
  exists url, i, resp, obj. split; [by apply Hu|]. split; [by apply Hev|done].
Qed.

Lemma collections_loop_justified (url : str) (todo : list (str * str)) (found_any : bool)
    (t : tally) (s s' : S) (r : res (bool * tally)) (evs : list event) :
  collections_loop svc fuel discovery project_id url todo found_any t s = (r, s', evs) ->
  justified_in project_id (eq url) (fun c => c ∈ map fst todo) evs evs.
Proof.
  revert found_any t s s' r evs.
  induction todo as [|[cid cname] rest IH]; intros fa t s s' r evs.
  - intros [= <- <- <-]. by apply justified_in_nil.
  - cbn [collections_loop]. intros H.
    apply bind_inv in H
      as [(r1 & Hfind & Hstop) | (docs & s1 & ev1 & ev2 & Hfind & Hk & ->)].
    + apply find_loop_spec in Hfind as (Hq & _).
      apply justified_in_nil. by apply only_queries_no_delete in Hq as [Hq _].
    + pose proof (find_loop_spec _ _ _ _ _ _ _ _ _ _ _ _ Hfind) as (Hq & _).
      apply only_queries_no_delete in Hq as [Hq _].
      assert (Hrest : forall ev', justified_in project_id (eq url)
                                    (fun c => c ∈ map fst rest) ev' ev' ->
                forall pre, justified_in project_id (eq url)
                              (fun c => c ∈ map fst ((cid, cname) :: rest))
                              ev' (pre ++ ev')).
      { intros ev' H pre. apply (justified_in_mono _ _ _ _ _ _ _ H); [done| |].
        - intros c Hc. by right.
        - intros ev Hev. apply elem_of_app. by right. }
      destruct (is_nil docs).
      * apply justified_in_app; [by apply justified_in_nil|].
        apply Hrest. by apply IH in Hk.
      * destruct (delete_loop_spec svc discovery project_id url cid cname docs t s1)
          as (t1 & s2 & ev3 & Hdel & Hreq & _).
        destruct (bind_val_run _ _ _ _ _ _ _ _ _ Hdel Hk) as (ev4 & Hloop & ->).
        apply justified_in_app; [by apply justified_in_nil|].
        apply justified_in_app.
        -- intros req Hin. rewrite Hreq in Hin.
           apply list_elem_of_fmap in Hin as (d & -> & Hd).
           cbn [d_project_id d_collection_id d_document_id].
           split; [done|]. split; [by left|].
           destruct (find_ids_served svc discovery project_id cid url fuel _ _ _ _
                                     Hfind d Hd) as (_ & i & resp & obj & Hin & Hobj & Hid).
           exists url, i, resp, obj. split; [done|]. split; [|done].
           apply elem_of_app. by left.
        -- apply IH in Hloop.
           pose proof (Hrest ev4 Hloop (ev1 ++ ev3)) as H. by rewrite <- app_assoc in H.
Qed.

Lemma urls_loop_justified (collections : list (str * str)) (urls : list str)
    (t : tally) (s s' : S) (r : res tally) (evs : list event) :
  urls_loop svc fuel discovery project_id collections urls t s = (r, s', evs) ->
  justified_in project_id (fun u => u ∈ urls) (fun c => c ∈ map fst collections) evs evs.
Proof.
  revert t s s' r evs. induction urls as [|url rest IH]; intros t s s' r evs.
  - intros [= <- <- <-]. by apply justified_in_nil.
  - cbn [urls_loop]. intros H.
    assert (Hurl : forall t s r s' evs,
      process_url svc fuel discovery project_id collections url t s = (r, s', evs) ->
      justified_in project_id (fun u => u ∈ url :: rest)
                   (fun c => c ∈ map fst collections) evs evs).
    { clear. intros t s r s' evs Hrun. unfold process_url in Hrun.
      apply (bind_val_run _ _ s s _ tt _ [EvPrint (lit "Processing: " ++ url)]) in Hrun
        as (ev0 & Hrun & ->); [|done].
      assert (Hloop : forall r1 s1 ev1,
        collections_loop svc fuel discovery project_id url collections false t s
          = (r1, s1, ev1) ->
        forall post, delete_requests post = [] ->
        justified_in project_id (fun u => u ∈ url :: rest)
                     (fun c => c ∈ map fst collections)
                     ([EvPrint (lit "Processing: " ++ url)] ++ ev1 ++ post)
                     ([EvPrint (lit "Processing: " ++ url)] ++ ev1 ++ post)).
      { intros r1 s1 ev1 Hl post Hpost. apply collections_loop_justified in Hl.
        apply justified_in_app; [by apply justified_in_nil|].
        apply justified_in_app; [|by apply justified_in_nil].
        apply (justified_in_mono _ _ _ _ _ _ _ Hl); [|done|].
        - intros u <-. by left.
        - intros ev Hev. apply elem_of_app. right. apply elem_of_app. by left. }
      apply bind_inv in Hrun
        as [(r1 & Hl & _) | ([fa t1] & s1 & ev1 & ev2 & Hl & Hclose & ->)].
      - pose proof (Hloop _ _ _ Hl [] eq_refl) as H. by rewrite app_nil_r in H.
      - apply (Hloop _ _ _ Hl). unfold close_url in Hclose. cbn [fst snd] in Hclose.
        destruct fa; by injection Hclose as _ _ <-. }
    apply bind_inv in H
      as [(r1 & Hp & _) | (t1 & s1 & ev1 & ev2 & Hp & Hk & ->)].
    + by apply Hurl in Hp.
    + apply Hurl in Hp. apply IH in Hk. apply justified_in_app.
      * apply (justified_in_mono _ _ _ _ _ _ _ Hp); [done|done|].
        intros ev Hev. apply elem_of_app. by left.
      * apply (justified_in_mono _ _ _ _ _ _ _ Hk); [|done|].
        -- intros u Hu. by right.
        -- intros ev Hev. apply elem_of_app. by right.
Qed.

(** X17: whatever the end of the URL loop, every [delete_document] call
    it makes is for the configured project, for one of the listed
    collections, and for a document id that a [query] call of the same
    run returned for that very collection and for one of the URLs of the
    list: nothing else is ever asked to be deleted. *)
Theorem deletes_only_what_was_found (collections : list (str * str)) (urls : list str)
    (t : tally) (s s' : S) (r : res tally) (evs : list event) :
  urls_loop svc fuel discovery project_id collections urls t s = (r, s', evs) ->
  forall req,
    req ∈ delete_requests evs ->
    d_project_id req = project_id
    /\ d_collection_id req ∈ map fst collections
    /\ exists url i resp obj,
         url ∈ urls
         /\ EvQuery (request_at project_id (d_collection_id req) url (100 * i))
                    (Returned resp) ∈ evs
         /\ obj ∈ results_of resp
         /\ doc_document_id obj = Some (d_document_id req).
Proof. intros Hrun. exact (urls_loop_justified _ _ _ _ _ _ _ Hrun). Qed.

End DeleteTargets.

Lemma deletes_only_what_was_found_witness :
  fst (fst (urls_loop Demo.gappy 1 Demo.client_ok (lit "p1") [(lit "c1", lit "A")]
                      [Demo.url_a] Demo.start tt)) = Val (Tally 2 0 [])
  /\ d_collection_id (DeleteRequest (lit "p1") (lit "c1") (lit "d3"))
     ∈ map fst [(lit "c1", lit "A")].
Proof.
  split; [reflexivity|].
  assert (H : urls_loop Demo.gappy 1 Demo.client_ok (lit "p1") [(lit "c1", lit "A")]
                [Demo.url_a] Demo.start tt
              = (Val (Tally 2 0 []), tt,
                 snd (urls_loop Demo.gappy 1 Demo.client_ok (lit "p1")
                                [(lit "c1", lit "A")] [Demo.url_a] Demo.start tt)))
    by reflexivity.
  refine (proj1 (proj2 (deletes_only_what_was_found Demo.gappy 1 Demo.client_ok (lit "p1")
                          [(lit "c1", lit "A")] [Demo.url_a] Demo.start tt _ _ _ H
                          (DeleteRequest (lit "p1") (lit "c1") (lit "d3")) _))).
  apply list_elem_of_In. vm_compute. tauto.
Defined.

(** ** The whole run *)

Section MainMore.

Context {S : Type} (svc : service S).
Variable fuel : nat.

Lemma bind_forall {A B} (P : event -> Prop) (m : M S A) (k : A -> M S B) (s s' : S)
    (r : res B) (evs : list event) :
  bind m k s = (r, s', evs) ->
  (forall r1 s1 ev1, m s = (r1, s1, ev1) -> Forall P ev1) ->
  (forall a s1 r2 s2 ev2, k a s1 = (r2, s2, ev2) -> Forall P ev2) ->
  Forall P evs.
Proof.
  intros H Hm Hk.
  apply bind_inv in H as [(r1 & H1 & _) | (a & s1 & ev1 & ev2 & H1 & H2 & ->)].
  - by apply Hm in H1.
  - apply Forall_app. split; [by apply Hm in H1|by apply Hk in H2].
Qed.

Lemma delete_loop_loop_events (discovery : client) (project_id url cid cname : str)
    (docs : list str) (t : tally) (s s' : S) (r : res tally) (evs : list event) :
  delete_loop svc discovery project_id url cid cname docs t s = (r, s', evs) ->
  Forall loop_event evs.
Proof.
  revert t s s' r evs. induction docs as [|d ds IH]; intros t s s' r evs.
  - intros [= <- <- <-]. constructor.
  - cbn [delete_loop]. intros H. apply (bind_forall _ _ _ _ _ _ _ H).
    + intros r1 s1 ev1. rewrite delete_step_run. cbv zeta.
      destruct (svc_delete_document svc discovery _ s) as [o s0].
      intros [= <- <- <-]. by repeat constructor.
    + intros a s1 r2 s2 ev2. apply IH.
Qed.

Lemma find_loop_events (discovery : client) (project_id cid url : str) (s s' : S)
    (r : res (list str)) (evs : list event) :
  find_documents_by_url svc fuel discovery project_id cid url s = (r, s', evs) ->
  Forall loop_event evs.
Proof.
  intros H. apply find_loop_spec in H as (Hq & _).
  eapply Forall_impl; [exact Hq|]. by intros ev (q & o & ->).
Qed.

Lemma urls_loop_loop_events (discovery : client) (project_id : str)
    (collections : list (str * str)) (urls : list str) (t : tally) (s s' : S)
    (r : res tally) (evs : list event) :
  urls_loop svc fuel discovery project_id collections urls t s = (r, s', evs) ->
  Forall loop_event evs.
Proof.
  assert (Hcoll : forall url todo fa t s r s' evs,
    collections_loop svc fuel discovery project_id url todo fa t s = (r, s', evs) ->
    Forall loop_event evs).
  { intros url todo. induction todo as [|[cid cname] rest IH]; intros fa t0 s0 r0 s0' evs0.
    - intros [= <- <- <-]. constructor.
    - cbn [collections_loop]. intros H. apply (bind_forall _ _ _ _ _ _ _ H).
      + intros r1 s1 ev1. apply find_loop_events.
      + intros docs s1 r2 s2 ev2. destruct (is_nil docs); [apply IH|].
        intros H2. apply (bind_forall _ _ _ _ _ _ _ H2).
        * intros r1 s3 ev1. apply delete_loop_loop_events.
        * intros a s3 r3 s4 ev3. apply IH. }
  revert t s s' r evs. induction urls as [|url rest IH]; intros t s s' r evs.
  - intros [= <- <- <-]. constructor.
  - cbn [urls_loop]. intros H. apply (bind_forall _ _ _ _ _ _ _ H).
    + intros r1 s1 ev1. unfold process_url. intros H1.
      apply (bind_forall _ _ _ _ _ _ _ H1).
      * intros r2 s2 ev2 [= <- <- <-]. by repeat constructor.
      * intros [] s2 r2 s3 ev2 H2. apply (bind_forall _ _ _ _ _ _ _ H2).
        -- intros r3 s4 ev3. apply Hcoll.
        -- intros [fa t1] s4 r3 s5 ev3. unfold close_url. cbn [fst snd].
           destruct fa; intros [= <- <- <-]; by repeat constructor.
    + intros a s1 r2 s2 ev2. apply IH.
Qed.

Lemma prints_are_both (lines : list str) :
  Forall quiet_event (map EvPrint lines) /\ Forall loop_event (map EvPrint lines).
Proof. induction lines as [|l ls [IH1 IH2]]; split; by constructor. Qed.

Lemma quiet_no_calls (evs : list event) :
  Forall quiet_event evs ->
  query_requests evs = [] /\ delete_requests evs = [] /\ failed_calls evs = [].
Proof.
  induction 1 as [|ev evs Hev _ IH]; [done|].
  by destruct ev.
Qed.

Lemma loop_no_setup (evs : list event) :
  Forall loop_event evs -> client_events evs = [] /\ list_calls evs = [].
Proof.
  induction 1 as [|ev evs Hev _ IH]; [done|].
  by destruct ev.
Qed.

Lemma client_events_app (ev1 ev2 : list event) :
  client_events (ev1 ++ ev2) = client_events ev1 ++ client_events ev2.
Proof. apply omap_app. Qed.

Lemma list_calls_app (ev1 ev2 : list event) :
  list_calls (ev1 ++ ev2) = list_calls ev1 ++ list_calls ev2.
Proof. apply omap_app. Qed.

(** The lines of the summary. *)
Lemma summary_lines (urls : list str) (t : tally) (s : S) :
  summary urls t s
  = (Val tt, s,
     map EvPrint
         ([[10%N] ++ lit "--- Summary ---";
           lit "URLs processed:  " ++ of_nat (length urls);
           lit "Documents deleted: " ++ of_nat (total_deleted t);
           lit "URLs not found:  " ++ of_nat (total_not_found t)]
          ++ (if is_nil (errors t) then []
              else (lit "Errors:          " ++ of_nat (length (errors t)))
                   :: map error_line (errors t)))).
Proof.
  unfold summary, bind, print. destruct (is_nil (errors t)); [done|].
  by rewrite print_all_val.
Qed.

(** [main] stops at its first checks with one printed line. *)
Lemma main_stops_early (inp : inputs) (s : S) :
  complete inp = false
  \/ files inp !! url_file inp = None
  \/ (exists content, files inp !! url_file inp = Some content
                      /\ load_urls_text content = []) ->
  exists code line,
    main svc fuel inp s = (Exit code, s, [EvPrint line])
    /\ (code = 0 \/ code = 1)
    /\ (code = 0 -> complete inp = true /\ is_Some (files inp !! url_file inp)).
Proof.
  intros H. destruct (complete inp) eqn:Hc.
  - destruct (files inp !! url_file inp) as [content|] eqn:Hf.
    + destruct H as [H|[H|(content' & [= <-] & Hurls)]]; try done.
      destruct (nothing_to_do_run svc fuel inp content s Hc Hf Hurls) as [Hmain _].
      exists 0, (lit "No URLs found in input file. Nothing to do.").
      split; [exact Hmain|]. split; [by left|]. intros _. by split; [|eexists].
    + exists 1, (lit "ERROR: URL file not found: " ++ url_file inp).
      split; [|split; [by right|done]].
      unfold main. rewrite (bind_val _ _ _ _ _ _ (load_config_complete inp s Hc)).
      assert (Hload : load_urls (S:=S) inp (url_file inp) s
                = (Exit 1, s, [EvPrint (lit "ERROR: URL file not found: " ++ url_file inp)])).
      { unfold load_urls. by rewrite Hf. }
      by rewrite (bind_exit _ _ _ _ _ _ Hload).
  - destruct (load_config_missing inp s Hc) as [line Hcfg].
    exists 1, line. split; [|split; [by right|done]].
    unfold main. by rewrite (bind_exit _ _ _ _ _ _ Hcfg).
Qed.

(** Either [main] stops early, or it reaches the listing of the
    collections with a complete configuration and at least one URL. *)
Lemma main_split (inp : inputs) :
  (complete inp = false
   \/ files inp !! url_file inp = None
   \/ (exists content, files inp !! url_file inp = Some content
                       /\ load_urls_text content = []))
  \/ (exists content, complete inp = true
                      /\ files inp !! url_file inp = Some content
                      /\ load_urls_text content <> []).
Proof.
  destruct (complete inp); [|by left; left].
  destruct (files inp !! url_file inp) as [content|]; [|by left; right; left].
  destruct (load_urls_text content) as [|u us] eqn:U.
  - left. right. right. by exists content.
  - right. exists content. by rewrite U.
Qed.

(** X18: whatever the inputs, the service and the end of the run, [main]
    creates the client at most once and lists the collections at most
    once, and both before anything else is asked of the service: the log
    splits into a first part without any [query] or [delete_document]
    call and a second part made of console lines, [query] calls and
    [delete_document] calls only.  The collections are a snapshot taken
    before the first search. *)
Theorem main_sets_up_once (inp : inputs) (s : S) :
  let evs := snd (main svc fuel inp s) in
  length (client_events evs) <= 1
  /\ length (list_calls evs) <= 1
  /\ exists before after,
       evs = before ++ after
       /\ Forall quiet_event before
       /\ Forall loop_event after.
Proof.
  cbv zeta. destruct (main_split inp) as [Hearly|(content & Hc & Hf & Hu)].
  - destruct (main_stops_early inp s Hearly) as (code & line & -> & _). cbn [snd].
    split; [simpl; lia|]. split; [simpl; lia|].
    exists [EvPrint line], []. split; [done|]. split; by repeat constructor.
  - rewrite (main_to_collections svc fuel inp content s Hc Hf Hu). cbv zeta.
    set (head := [EvPrint _; EvClient _]).
    assert (Hhead : Forall quiet_event head) by by repeat constructor.
    destruct (get_collections svc (client_of inp) (cfg_project_id (config_of inp)) s)
      as [[r1 s1] ev1] eqn:Hget.
    destruct (get_collections_log _ _ _ _ _ _ _ Hget) as [[o ->] _].
    assert (Hev1 : Forall quiet_event
                     [EvListCollections (cfg_project_id (config_of inp)) o])
      by by repeat constructor.
    assert (Hshort : forall tail,
      tail = [] \/ (exists l, tail = [EvPrint l]) ->
      length (client_events
                (head ++ [EvListCollections (cfg_project_id (config_of inp)) o] ++ tail)) <= 1
      /\ length (list_calls
                   (head ++ [EvListCollections (cfg_project_id (config_of inp)) o] ++ tail))
         <= 1
      /\ exists before after,
           head ++ [EvListCollections (cfg_project_id (config_of inp)) o] ++ tail
           = before ++ after
           /\ Forall quiet_event before /\ Forall loop_event after).
    { intros tail Htail. split; [|split].
      - destruct Htail as [->|[l ->]]; simpl; lia.
      - destruct Htail as [->|[l ->]]; simpl; lia.
      - eexists _, []. split; [by rewrite app_nil_r|]. split; [|constructor].
        apply Forall_app. split; [done|]. apply Forall_app. split; [done|].
        destruct Htail as [->|[l ->]]; by repeat constructor. }
    destruct r1 as [colls|e|c|]; cbn [snd];
      try (rewrite <- (app_nil_r [EvListCollections _ o]); apply Hshort; by left).
    destruct (is_nil colls).
    { cbn [snd]. apply Hshort. right. by eexists. }
    set (listing := EvPrint _ :: map EvPrint _ ++ [EvPrint []]).
    assert (Hlisting : Forall quiet_event listing).
    { unfold listing. constructor; [done|]. apply Forall_app.
      split; [apply prints_are_both|by repeat constructor]. }
    destruct (urls_loop svc fuel (client_of inp) (cfg_project_id (config_of inp)) colls
                        (load_urls_text content) (Tally 0 0 []) s1)
      as [[r2 s2] ev2] eqn:Hloop.
    apply urls_loop_loop_events in Hloop.
    assert (Hlong : forall tail,
      Forall loop_event tail ->
      length (client_events
                (head ++ [EvListCollections (cfg_project_id (config_of inp)) o]
                 ++ listing ++ ev2 ++ tail)) <= 1
      /\ length (list_calls
                   (head ++ [EvListCollections (cfg_project_id (config_of inp)) o]
                    ++ listing ++ ev2 ++ tail)) <= 1
      /\ exists before after,
           head ++ [EvListCollections (cfg_project_id (config_of inp)) o]
           ++ listing ++ ev2 ++ tail = before ++ after
           /\ Forall quiet_event before /\ Forall loop_event after).
    { intros tail Htail.
      assert (Hafter : Forall loop_event (ev2 ++ tail)) by by apply Forall_app.
      destruct (loop_no_setup _ Hafter) as [Hc2 Hl2].
      assert (Hlc : client_events listing = [] /\ list_calls listing = []).
      { unfold listing. unfold client_events, list_calls.
        change (omap ?f (EvPrint ?l :: ?evs)) with (omap f evs).
        rewrite !omap_app. split.
        - destruct (loop_no_setup _ (proj2 (prints_are_both
                      (map collection_line colls)))) as [H _].
          unfold client_events in H. by rewrite H.
        - destruct (loop_no_setup _ (proj2 (prints_are_both
                      (map collection_line colls)))) as [_ H].
          unfold list_calls in H. by rewrite H. }
      destruct Hlc as [Hlc1 Hlc2].
      split; [|split].
      - rewrite client_events_app in Hc2.
        rewrite !client_events_app, Hlc1, Hc2. simpl. lia.
      - rewrite list_calls_app in Hl2.
        rewrite !list_calls_app, Hlc2, Hl2. simpl. lia.
      - exists (head ++ [EvListCollections (cfg_project_id (config_of inp)) o] ++ listing),
               (ev2 ++ tail).
        split; [by rewrite <- !app_assoc|]. split; [|done].
        apply Forall_app. split; [done|]. by apply Forall_app. }
    destruct r2 as [t|e|c|]; cbn [snd];
      try (rewrite <- (app_nil_r ev2); apply Hlong; constructor).
    rewrite summary_lines. cbn [snd]. apply Hlong. apply prints_are_both.
Qed.

(** X19: a run of [main] that ends has exit status 0 or 1 and no other,
    and status 0 only with a complete configuration and an existing URL
    file; the only way not to end is a search that keeps paging. *)
Theorem main_exit_status_is_0_or_1 (inp : inputs) (s : S) :
  (status_of_run (main svc fuel inp s) = Some 0
   \/ status_of_run (main svc fuel inp s) = Some 1
   \/ fst (fst (main svc fuel inp s)) = Fuel)
  /\ (status_of_run (main svc fuel inp s) = Some 0 ->
      complete inp = true /\ is_Some (files inp !! url_file inp)).
Proof.
  destruct (main_split inp) as [Hearly|(content & Hc & Hf & Hu)].
  - destruct (main_stops_early inp s Hearly) as (code & line & -> & Hcode & Hzero).
    unfold status_of_run. cbn [fst exit_status]. split.
    + destruct Hcode as [->| ->]; [by left|by right; left].
    + intros [= ->]. by apply Hzero.
  - split; [|intros _; by split; [|eexists]].
    rewrite (main_to_collections svc fuel inp content s Hc Hf Hu). cbv zeta.
    destruct (get_collections svc (client_of inp) (cfg_project_id (config_of inp)) s)
      as [[r1 s1] ev1] eqn:Hget.
    destruct (get_collections_log _ _ _ _ _ _ _ Hget) as [_ [[colls ->]|[e ->]]];
      [|by right; left].
    destruct (is_nil colls); [by right; left|].
    destruct (urls_loop svc fuel (client_of inp) (cfg_project_id (config_of inp)) colls
                        (load_urls_text content) (Tally 0 0 []) s1)
      as [[r2 s2] ev2] eqn:Hloop.
    apply urls_loop_spec in Hloop as (Hcut & _).
    destruct r2 as [t|e|c|]; [|by right; left|done|by right; right].
    rewrite summary_lines. by left.
Qed.

(** X20: the figures of the summary of a run of [main] that returns: the
    number of URLs processed is the number of URLs loaded, the number of
    URLs not found is at most that number, and, when some
    [delete_document] call failed, the number of errors is the number of
    such calls. *)
Theorem summary_figures (inp : inputs) (content : str) (s s' : S) (evs : list event) :
  complete inp = true ->
  files inp !! url_file inp = Some content ->
  load_urls_text content <> [] ->
  main svc fuel inp s = (Val tt, s', evs) ->
  EvPrint (lit "URLs processed:  " ++ of_nat (length (load_urls_text content))) ∈ evs
  /\ (exists k, k <= length (load_urls_text content)
                /\ EvPrint (lit "URLs not found:  " ++ of_nat k) ∈ evs)
  /\ (failed_calls evs <> [] ->
      EvPrint (lit "Errors:          " ++ of_nat (length (failed_calls evs))) ∈ evs).
Proof.
  intros Hc Hf Hu.
  rewrite (main_to_collections svc fuel inp content s Hc Hf Hu). cbv zeta.
  destruct (get_collections svc (client_of inp) (cfg_project_id (config_of inp)) s)
    as [[r1 s1] ev1] eqn:Hget.
  destruct (get_collections_log _ _ _ _ _ _ _ Hget) as [[o ->] _].
  destruct r1 as [colls|e|c|]; try done.
  destruct (is_nil colls); [done|].
  destruct (urls_loop svc fuel (client_of inp) (cfg_project_id (config_of inp)) colls
                      (load_urls_text content) (Tally 0 0 []) s1)
    as [[r2 s2] ev2] eqn:Hloop.
  destruct r2 as [t|e|c|]; try done.
  rewrite summary_lines.
  set (head := [EvPrint _; EvClient _]).
  set (listing := EvPrint _ :: map EvPrint _ ++ [EvPrint []]).
  set (lines := _ ++ (if is_nil (errors t) then _ else _)).
  intros Hmain. apply (f_equal snd) in Hmain. cbn [snd] in Hmain. subst evs.
  assert (Hin : forall l,
    l ∈ lines ->
    EvPrint l ∈ head ++ [EvListCollections (cfg_project_id (config_of inp)) o] ++ listing
                ++ ev2 ++ map EvPrint lines).
  { intros l Hl. apply elem_of_app. right. apply elem_of_app. right.
    apply elem_of_app. right. apply elem_of_app. right.
    apply list_elem_of_fmap. by exists l. }
  assert (Hfailed :
    failed_calls (head ++ [EvListCollections (cfg_project_id (config_of inp)) o]
                  ++ listing ++ ev2 ++ map EvPrint lines) = failed_calls ev2).
  { assert (Hq1 : failed_calls head = []) by done.
    assert (Hq2 : failed_calls [EvListCollections (cfg_project_id (config_of inp)) o] = [])
      by done.
    assert (Hq3 : failed_calls listing = []).
    { apply quiet_no_calls. unfold listing. constructor; [done|]. apply Forall_app.
      split; [apply prints_are_both|by repeat constructor]. }
    assert (Hq4 : failed_calls (map EvPrint lines) = []).
    { apply quiet_no_calls, prints_are_both. }
    by rewrite !failed_calls_app, Hq1, Hq2, Hq3, Hq4, app_nil_r. }
  pose proof (urls_loop_not_found _ _ _ _ _ _ _ _ _ _ _ Hloop) as (_ & Hhi & _).
  pose proof (urls_loop_spec _ _ _ _ _ _ _ _ _ _ _ Hloop) as (_ & _ & Hacc).
  destruct (Hacc t eq_refl) as (_ & later & He & Hl). cbn [errors app] in He.
  split; [|split].
  - apply Hin. apply elem_of_app. left.
    apply list_elem_of_further, list_elem_of_here.
  - exists (total_not_found t). split; [simpl in Hhi; lia|].
    apply Hin. apply elem_of_app. left.
    do 3 apply list_elem_of_further. apply list_elem_of_here.
  - rewrite Hfailed. intros Hne.
    apply (f_equal (@length _)) in Hl. rewrite !length_map in Hl. rewrite <- Hl, <- He.
    apply Hin. apply elem_of_app. right.
    destruct (errors t) as [|e0 es]; [|apply list_elem_of_here].
    subst later. by destruct (failed_calls ev2).
Qed.

End MainMore.

Lemma summary_figures_witness :
  main Demo.failing 1 Demo.inputs_ok tt
    = (Val tt, tt, snd (main Demo.failing 1 Demo.inputs_ok tt))
  /\ EvPrint (lit "URLs processed:  " ++ of_nat (length (load_urls_text Demo.list_text)))
     ∈ snd (main Demo.failing 1 Demo.inputs_ok tt).
Proof.
  assert (Hc : complete Demo.inputs_ok = true) by by vm_compute.
  assert (Hf : files Demo.inputs_ok !! url_file Demo.inputs_ok = Some Demo.list_text)
    by by vm_compute.
  assert (Hu : load_urls_text Demo.list_text <> []) by by vm_compute.
  assert (H : main Demo.failing 1 Demo.inputs_ok tt
              = (Val tt, tt, snd (main Demo.failing 1 Demo.inputs_ok tt)))
    by by vm_compute.
  split; [exact H|].
  exact (proj1 (summary_figures Demo.failing 1 Demo.inputs_ok Demo.list_text tt tt _
                  Hc Hf Hu H)).
Defined.
